(** * AuthService: credential lifecycle of the NexaFx backend

    A shallow embedding of [src/auth/services/auth.service.ts].  Every method
    of the class becomes a computation in a small state-and-exception monad
    over a [World] that holds the two TypeORM tables the service writes to,
    the wall clock read by [Date.now()] and the mail transport.  Collaborators
    injected through the constructor (password hashing, JWT signing secret,
    signature recovery) are the variables of the section [AuthService]. *)

From Stdlib Require Import ZArith List String Ascii Bool Lia.
Import ListNotations.

Local Open Scope string_scope.
Local Open Scope Z_scope.

(** ** JavaScript primitives used by the service *)

Module JS.

(** The character of a decimal digit [0..9]. *)
Definition digitChar (d : Z) : ascii := ascii_of_nat (48 + Z.to_nat d).

(** The value of a decimal digit character. *)
Definition digitVal (c : ascii) : Z := Z.of_nat (nat_of_ascii c) - 48.

(** Most significant digit first; [fuel] bounds the number of digits. *)
Fixpoint toDigits (fuel : nat) (n : Z) (acc : string) : string :=
  match fuel with
  | O => acc
  | S fuel' =>
      if n <? 10 then String (digitChar n) acc
      else toDigits fuel' (n / 10) (String (digitChar (n mod 10)) acc)
  end.

(** Decimal rendering of a natural number. *)
Definition decimal (n : Z) : string :=
  toDigits (S (Z.to_nat (Z.log2 n))) n EmptyString.

(** [Number.MAX_SAFE_INTEGER], 2^53 - 1. *)
Definition MAX_SAFE_INTEGER : Z := 9007199254740991.

(** [Number.isSafeInteger(n)]: the integers a JavaScript number holds
    exactly, each being a number of its own. *)
Definition isSafeInteger (n : Z) : Prop :=
  - MAX_SAFE_INTEGER <= n <= MAX_SAFE_INTEGER.

(** [String(n)] and [n.toString()] on an integral number (below 1e21 in
    magnitude, where JavaScript prints plain decimal digits; from 1e21 on
    it prints an exponent, which this rendering does not follow: it stands
    for the program on safe integers). *)
Definition toString (n : Z) : string :=
  if n <? 0 then "-" ++ decimal (- n) else decimal n.

(** Reading a digit string back, left to right. *)
Fixpoint parseDigits (s : string) (acc : Z) : Z :=
  match s with
  | EmptyString => acc
  | String c s' => parseDigits s' (10 * acc + digitVal c)
  end.

Definition isDigit (c : ascii) : bool :=
  let n := nat_of_ascii c in ((48 <=? n) && (n <=? 57))%nat.

(** Every character is one of 0..9. *)
Fixpoint allDigits (s : string) : bool :=
  match s with
  | EmptyString => true
  | String c s' => isDigit c && allDigits s'
  end.

Definition lowerChar (c : ascii) : ascii :=
  let n := nat_of_ascii c in
  if ((65 <=? n) && (n <=? 90))%nat then ascii_of_nat (n + 32) else c.

(** [s.toLowerCase()] on the ASCII range (wallet addresses are hex). *)
Fixpoint toLowerCase (s : string) : string :=
  match s with
  | EmptyString => EmptyString
  | String c s' => String (lowerChar c) (toLowerCase s')
  end.

(** Accepted digits of a leading decimal number, and the rest. *)
Fixpoint span_digits (s : string) : string * string :=
  match s with
  | EmptyString => (EmptyString, EmptyString)
  | String c s' =>
      let n := nat_of_ascii c in
      if ((48 <=? n) && (n <=? 57))%nat
      then let '(ds, rest) := span_digits s' in (String c ds, rest)
      else (EmptyString, s)
  end.

(** The [ms] package on the short forms the service uses ("15m", "7d",
    "1h", "3d"): a time span in milliseconds. *)
Definition ms (s : string) : option Z :=
  let '(ds, unit) := span_digits s in
  match ds with
  | EmptyString => None
  | _ =>
      let n := parseDigits ds 0 in
      if unit =? "s" then Some (n * 1000)
      else if unit =? "m" then Some (n * 60 * 1000)
      else if unit =? "h" then Some (n * 60 * 60 * 1000)
      else if unit =? "d" then Some (n * 24 * 60 * 60 * 1000)
      else None
  end%string.

(** [crypto.randomInt(min, max)]: Node draws [x] below a multiple of the
    range by rejection sampling and returns [(x % range) + min], so the
    result lies in [min, max) with [max] excluded.  [x] is the accepted
    draw. *)
Definition randomInt (min max : Z) (x : Z) : Z :=
  let range := max - min in
  (x mod range) + min.

End JS.

(** ** Exceptions *)

(** The subclasses of NestJS [HttpException] the service throws. *)
Inductive HttpException : Type :=
| ConflictException (message : string)
| UnauthorizedException (message : string)
| InternalServerErrorException (message : string).

(** A thrown value: an [HttpException], or any other [Error] (those of
    jsonwebtoken, of the mail transport), kept by name and message. *)
Inductive Error : Type :=
| Http (e : HttpException)
| Other (name message : string).

(** [error instanceof HttpException] *)
Definition instanceof_HttpException (e : Error) : bool :=
  match e with
  | Http _ => true
  | Other _ _ => false
  end.

(** The members of NestJS [HttpStatus] behind these classes, and the one a
    [NotFoundException] would carry. *)
Definition HttpStatus_UNAUTHORIZED : Z := 401.
Definition HttpStatus_NOT_FOUND : Z := 404.
Definition HttpStatus_CONFLICT : Z := 409.
Definition HttpStatus_INTERNAL_SERVER_ERROR : Z := 500.

(** [exception.getStatus()]: the status fixed by the exception's class. *)
Definition getStatus (e : HttpException) : Z :=
  match e with
  | ConflictException _ => HttpStatus_CONFLICT
  | UnauthorizedException _ => HttpStatus_UNAUTHORIZED
  | InternalServerErrorException _ => HttpStatus_INTERNAL_SERVER_ERROR
  end.

Inductive Completion (A : Type) : Type :=
| Return (a : A)
| Throw (e : Error).
Arguments Return {A} a.
Arguments Throw {A} e.

(** ** Entities and the world *)

(** Modelled from the spec: the [User] entity ([src/user/entities/user.entity])
    is declared outside this file; its fields are those of the spec's
    Identity, {id, email, passwordHash, walletAddress (optional),
    walletNonce}, under the names the service reads and writes. *)
Record User : Type := mkUser {
  id : string;
  email : string;
  password : string;
  walletAddress : option string;
  walletNonce : string
}.

(** Modelled from the spec: the [Otp] entity ([src/user/entities/otp.entity]),
    the spec's OtpRecord {email, code, expiresAt}; [expiresAt] is the
    [getTime()] of the stored date, in milliseconds. *)
Record Otp : Type := mkOtp {
  otp_email : string;
  code : string;
  expiresAt : Z
}.

Record World : Type := mkWorld {
  userRepo : list User;          (* the users table, in row order *)
  otpRepo : list Otp;            (* the otp table, in row order *)
  clock : Z;                     (* Date.now(), milliseconds *)
  mailerUp : bool;               (* whether the mail transport delivers *)
  outbox : list (string * string)  (* mails handed to the transport *)
}.

Definition set_userRepo (us : list User) (w : World) : World :=
  mkWorld us (otpRepo w) (clock w) (mailerUp w) (outbox w).

Definition set_otpRepo (os : list Otp) (w : World) : World :=
  mkWorld (userRepo w) os (clock w) (mailerUp w) (outbox w).

Definition set_outbox (ms : list (string * string)) (w : World) : World :=
  mkWorld (userRepo w) (otpRepo w) (clock w) (mailerUp w) ms.

(** ** The monad of service methods: state passing with exceptions.
    A write made before a throw stays (the store has no rollback). *)

Definition M (A : Type) : Type := World -> Completion A * World.

Definition ret {A} (a : A) : M A := fun w => (Return a, w).

Definition throw {A} (e : Error) : M A := fun w => (Throw e, w).

Definition bind {A B} (m : M A) (f : A -> M B) : M B :=
  fun w =>
    match m w with
    | (Return a, w') => f a w'
    | (Throw e, w') => (Throw e, w')
    end.

(** [try { m } catch (error) { h error }] *)
Definition try_catch {A} (m : M A) (h : Error -> M A) : M A :=
  fun w =>
    match m w with
    | (Return a, w') => (Return a, w')
    | (Throw e, w') => h e w'
    end.

Declare Scope auth_scope.
Delimit Scope auth_scope with auth.
Notation "x <- m ;; k" := (bind m (fun x => k))
  (at level 61, m at next level, right associativity) : auth_scope.
Notation "m ;;; k" := (bind m (fun _ => k))
  (at level 61, right associativity) : auth_scope.
Local Open Scope auth_scope.

(** [Date.now()] *)
Definition Date_now : M Z := fun w => (Return (clock w), w).

(** The value a call completes with, and the world it leaves. *)
Definition outcome {A} (r : Completion A * World) : Completion A := fst r.
Definition after {A} (r : Completion A * World) : World := snd r.

(** ** JSON Web Tokens, as [@nestjs/jwt] over jsonwebtoken handles them *)

Module Jwt.

(** The claims of a signed token; [iat] and [exp] are in seconds. *)
Record Payload : Type := mkPayload {
  email : string;
  sub : string;
  iat : Z;
  exp : Z
}.

(** A token string is either not a JWT at all, or claims under the
    signature of some key. *)
Inductive Token : Type :=
| Malformed (raw : string)
| Signed (key : string) (claims : Payload).

(** [jwtService.sign({ email, sub }, { expiresIn })]: [iat] is the clock in
    whole seconds and [exp = floor(iat + ms(expiresIn) / 1000)]. *)
Definition sign (secret : string) (email sub : string) (expiresIn : string)
  : M Token :=
  fun w =>
    let iat := clock w / 1000 in
    match JS.ms expiresIn with
    | Some milliseconds =>
        (Return (Signed secret (mkPayload email sub iat (iat + milliseconds / 1000))), w)
    | None => (Throw (Other "Error" "invalid expiresIn option"), w)
    end.

(** [jwtService.verify(token)]: presence and format, then signature, then
    expiry ([clockTimestamp >= payload.exp] is expired). *)
Definition verify (secret : string) (token : Token) : M Payload :=
  fun w =>
    match token with
    | Malformed EmptyString =>
        (Throw (Other "JsonWebTokenError" "jwt must be provided"), w)
    | Malformed _ => (Throw (Other "JsonWebTokenError" "jwt malformed"), w)
    | Signed key claims =>
        if negb (key =? secret)%string
        then (Throw (Other "JsonWebTokenError" "invalid signature"), w)
        else if exp claims <=? clock w / 1000
        then (Throw (Other "TokenExpiredError" "jwt expired"), w)
        else (Return claims, w)
    end.

End Jwt.

(** What [login] returns: [{ accessToken, refreshToken }]. *)
Module Session.
Record t : Type := mk {
  accessToken : Jwt.Token;
  refreshToken : Jwt.Token
}.
End Session.

(** ** Repositories and collaborators over the world *)

(** Modelled from the spec: [UserService.findOne] is declared outside this
    file; it is the identity store's [findByEmail(email) -> Identity?], the
    first row with that email. *)
Definition usersService_findOne (e : string) : M (option User) :=
  fun w => (Return (find (fun u => (email u =? e)%string) (userRepo w)), w).

(** [userRepo.findOne({ where: { id } })] *)
Definition userRepo_findOne (i : string) : M (option User) :=
  fun w => (Return (find (fun u => (id u =? i)%string) (userRepo w)), w).

(** [userRepo.save(user)]: the row with the entity's primary key is
    updated; an entity with a new key is inserted. *)
Definition userRepo_save (user : User) : M User :=
  fun w =>
    let rows := userRepo w in
    let same u := (id u =? id user)%string in
    let rows' := if existsb same rows
                 then map (fun u => if same u then user else u) rows
                 else (rows ++ [user])%list in
    (Return user, set_userRepo rows' w).

Definition otp_matches (e c : string) (r : Otp) : bool :=
  ((otp_email r =? e) && (code r =? c))%string.

(** [otpRepo.save({ email, code, expiresAt })]: a new row. *)
Definition otpRepo_save (r : Otp) : M unit :=
  fun w => (Return tt, set_otpRepo (otpRepo w ++ [r])%list w).

(** [otpRepo.findOneBy({ email, code })]: the first matching row. *)
Definition otpRepo_findOneBy (e c : string) : M (option Otp) :=
  fun w => (Return (find (otp_matches e c) (otpRepo w)), w).

(** [otpRepo.delete({ email, code })]: every matching row goes. *)
Definition otpRepo_delete (e c : string) : M unit :=
  fun w =>
    (Return tt,
     set_otpRepo (filter (fun r => negb (otp_matches e c r)) (otpRepo w)) w).

(** Modelled from the spec: [EmailService.sendOtpEmail] is declared outside
    this file; the spec's Notifier [sendOtpEmail(email, code) -> void] can
    fail, which the transport reports by throwing. *)
Definition emailService_sendOtpEmail (e otp : string) : M unit :=
  fun w =>
    if mailerUp w
    then (Return tt, set_outbox (outbox w ++ [(e, otp)])%list w)
    else (Throw (Other "Error" "mail transport failed"), w).

(** Modelled from the spec: [UserService.create] is declared outside this
    file; it is the identity store's [create(fields) -> Identity]: a new row
    with the given email and (already hashed) password and no wallet yet.
    [newId] and [nonce] are the primary key and the wallet nonce the store
    generates for the row. *)
Definition usersService_create (newId nonce : string) (e hashed : string)
  : M User :=
  fun w =>
    let user := mkUser newId e hashed None nonce in
    (Return user, set_userRepo (userRepo w ++ [user])%list w).

(** Modelled from the spec: [RegisterDto] ([src/auth/dto/register.dto]) is
    declared outside this file; of its fields the service reads [email] and
    [password]. *)
Module RegisterDto.
Record t : Type := mk {
  email : string;
  password : string
}.
End RegisterDto.

(** ** Sample collaborators and worlds, for running the service *)

Module Sample.

(** A transparent stand-in for bcrypt: the hash of [p] is ["bcrypt:" ++ p]. *)
Definition compare (plain hash : string) : bool :=
  (hash =? "bcrypt:" ++ plain)%string.

Definition secret : string := "signing-secret".

(** The hashing side of the stand-in. *)
Definition hash (plain : string) : string := "bcrypt:" ++ plain.

(** A recovery table with two signatures, both over alice's first
    challenge: one made by the key of 0xABCDEF, one by the key of
    0x123456.  Everything else is rejected as malformed. *)
Definition verifyMessage (message signature : string) : option string :=
  if (signature =? "0xsig-of-abcdef")%string then
    if (message =? "Link wallet with nonce: n0")%string
    then Some "0xABCDEF" else None
  else if (signature =? "0xsig-of-123456")%string then
    if (message =? "Link wallet with nonce: n0")%string
    then Some "0x123456" else None
  else None.

Definition alice : User :=
  mkUser "1" "a@x.com" "bcrypt:correct horse" None "n0".

Definition otp1 : Otp := mkOtp "a@x.com" "123456" 300000.

(** One user, one outstanding code, clock at [now]. *)
Definition world (now : Z) : World :=
  mkWorld [alice] [otp1] now true [].

(** The same world with the mail transport down. *)
Definition offline (now : Z) : World :=
  mkWorld [alice] [otp1] now false [].

(** A second user, on the same first nonce, and a world with both. *)
Definition bob : User :=
  mkUser "2" "b@x.com" "bcrypt:hunter2" None "n0".

Definition world2 (now : Z) : World :=
  mkWorld [alice; bob] [otp1] now true [].

(** The offline sample world with an expired row for the code the draw 5
    gives. *)
Definition stale (now : Z) : World :=
  mkWorld [alice] [mkOtp "a@x.com" "100005" 0] now false [].

(** A registration form for a second user. *)
Definition bob_dto : RegisterDto.t := RegisterDto.mk "b@x.com" "hunter2".

End Sample.

(** ** The service *)

Section AuthService.

(** [passwordService.compare(plain, hash)] *)
Variable passwordService_compare : string -> string -> bool.
(** The secret [JwtService] is configured with. *)
Variable jwtSecret : string.
(** [ethers.utils.verifyMessage(message, signature)]: the recovered
    signer address, or [None] where ethers throws. *)
Variable ethers_verifyMessage : string -> string -> option string.

(** Validate User Credentials *)
Definition validateUser (e pw : string) : M User :=
  user <- usersService_findOne e;;
  match user with
  | Some user =>
      if passwordService_compare pw (password user) then ret user
      else throw (Http (UnauthorizedException "Invalid credentials"))
  | None => throw (Http (UnauthorizedException "Invalid credentials"))
  end.

(** The challenge a wallet has to sign. *)
Definition challenge (user : User) : string :=
  "Link wallet with nonce: " ++ walletNonce user.

(** [linkWallet(userId, walletAddress, signature)]; [uuid] is what
    [crypto.randomUUID()] returns in this call. *)
Definition linkWallet (uuid : string) (userId : Z)
    (address signature : string) : M User :=
  user <- userRepo_findOne (JS.toString userId);;
  match user with
  | None => throw (Http (UnauthorizedException "User not found"))
  | Some user =>
      let message := challenge user in
      match ethers_verifyMessage message signature with
      | None => throw (Http (UnauthorizedException "Invalid signature"))
      | Some recoveredAddress =>
          if negb (JS.toLowerCase recoveredAddress =? JS.toLowerCase address)%string
          then throw (Http (UnauthorizedException "Signature verification failed"))
          else
            userRepo_save
              (mkUser (id user) (email user) (password user)
                      (Some address)      (* user.walletAddress = walletAddress *)
                      uuid)               (* rotate nonce after use *)
      end
  end.

(** Login Method (Generate JWT tokens) *)
Definition login (user : User) : M Session.t :=
  a <- Jwt.sign jwtSecret (email user) (id user) "15m";;
  r <- Jwt.sign jwtSecret (email user) (id user) "7d";;
  ret (Session.mk a r).

(** The claims [login] signs for [user] when the clock shows [now]
    milliseconds, for a lifetime of [ttl] seconds. *)
Definition claims_of (user : User) (now ttl : Z) : Jwt.Payload :=
  Jwt.mkPayload (email user) (id user) (now / 1000) (now / 1000 + ttl).

(** Refresh Token Method *)
Definition refreshToken (token : Jwt.Token) : M Session.t :=
  try_catch
    (decoded <- Jwt.verify jwtSecret token;;
     user <- usersService_findOne (Jwt.email decoded);;
     match user with
     | None => throw (Http (UnauthorizedException "Invalid refresh token"))
     | Some user => login user
     end)
    (fun _ =>
       throw (Http (UnauthorizedException "Invalid or expired refresh token"))).

(** [generateOtp()]; [x] is the draw behind [randomInt]. *)
Definition generateOtp (x : Z) : string :=
  JS.toString (JS.randomInt 100000 999999 x).

(** The [try] block of [reuestOtp]. *)
Definition reuestOtp_try (x : Z) (e : string) : M unit :=
  user <- usersService_findOne e;;
  match user with
  | None => throw (Http (ConflictException "invalid user does not exist"))
  | Some _ =>
      let otp := generateOtp x in
      now <- Date_now;;
      let expiresAt := now + 5 * 60 * 1000 in
      otpRepo_save (mkOtp e otp expiresAt);;;
      emailService_sendOtpEmail e otp
  end.

(** [reuestOtp(email)]: known exceptions are re-thrown, anything else
    becomes an internal server error. *)
Definition reuestOtp (x : Z) (e : string) : M unit :=
  try_catch (reuestOtp_try x e)
    (fun error =>
       if instanceof_HttpException error then throw error
       else throw (Http (InternalServerErrorException
                           "Failed to generate and send OTP"))).

(** [verifyOtp(email, code)] *)
Definition verifyOtp (e c : string) : M bool :=
  try_catch
    (record <- otpRepo_findOneBy e c;;
     match record with
     | None => ret false                         (* OTP not found *)
     | Some record =>
         now <- Date_now;;
         let isExpired := expiresAt record <? now in
         if isExpired
         then otpRepo_delete e c;;; ret false    (* cleanup; OTP expired *)
         else otpRepo_delete e c;;; ret true     (* one-time use *)
     end)
    (fun _ =>
       throw (Http (InternalServerErrorException
                      "Could not verify OTP at this time."))).

(** The recovery binds the message: one signature does not recover the
    same address (up to case) from two different messages. *)
Definition recovery_binds_message : Prop :=
  forall m1 m2 s a1 a2,
    ethers_verifyMessage m1 s = Some a1 ->
    ethers_verifyMessage m2 s = Some a2 ->
    JS.toLowerCase a1 = JS.toLowerCase a2 ->
    m1 = m2.


(** [passwordService.hash(plain)] *)
Variable passwordService_hash : string -> string.

(** Register User; [newId] and [nonce] are what the store generates for
    the new row. *)
Definition register (newId nonce : string) (registerDto : RegisterDto.t)
  : M Session.t :=
  existingUser <- usersService_findOne (RegisterDto.email registerDto);;
  match existingUser with
  | Some _ => throw (Http (ConflictException "Email is already in use"))
  | None =>
      let hashedPassword :=
        passwordService_hash (RegisterDto.password registerDto) in
      newUser <- usersService_create newId nonce
                   (RegisterDto.email registerDto) hashedPassword;;
      login newUser
  end.

(** Logout: the [message] of the object returned. *)
Definition logout : M string := ret "Logged out successfully".

(** The rows of the users table are keyed by [id]. *)
Definition keyed (w : World) : Prop := NoDup (map id (userRepo w)).

(** No two rows of the users table share an email. *)
Definition emails_unique (w : World) : Prop := NoDup (map email (userRepo w)).

(** ** One-time passcodes *)

Lemma find_all_false {A} (f : A -> bool) (l : list A) :
  (forall x, In x l -> f x = false) -> find f l = None.
Proof.
  induction l as [|a l IH]; intros H; simpl; [reflexivity|].
  rewrite (H a (or_introl eq_refl)).
  apply IH. intros x Hx. apply H. now right.
Qed.

Lemma purged_no_match (e c : string) (rows : list Otp) (r : Otp) :
  In r (filter (fun r => negb (otp_matches e c r)) rows) ->
  otp_matches e c r = false.
Proof.
  intros H. apply filter_In in H. destruct H as [_ H].
  now apply negb_true_iff in H.
Qed.

(** What [verifyOtp] does, by the row the lookup finds. *)
Lemma verifyOtp_unfold (e c : string) (w : World) :
  verifyOtp e c w =
  match find (otp_matches e c) (otpRepo w) with
  | None => (Return false, w)
  | Some r =>
      (Return (negb (expiresAt r <? clock w)),
       set_otpRepo (filter (fun r => negb (otp_matches e c r)) (otpRepo w)) w)
  end.
Proof.
  unfold verifyOtp, try_catch, bind, otpRepo_findOneBy, Date_now.
  destruct (find (otp_matches e c) (otpRepo w)) as [r|]; [|reflexivity].
  destruct (expiresAt r <? clock w); reflexivity.
Qed.

(** A store without a matching row answers [false] and stays as it is. *)
Lemma verifyOtp_absent (e c : string) (w : World) :
  (forall r, In r (otpRepo w) -> otp_matches e c r = false) ->
  verifyOtp e c w = (Return false, w).
Proof.
  intros H. rewrite verifyOtp_unfold, (find_all_false _ _ H). reflexivity.
Qed.

(** Once a lookup has hit, no later world whose rows all come from the
    purged table can verify the pair again. *)
Lemma verifyOtp_after_purge (e c : string) (w w2 : World) (r : Otp) :
  find (otp_matches e c) (otpRepo w) = Some r ->
  incl (otpRepo w2) (otpRepo (after (verifyOtp e c w))) ->
  verifyOtp e c w2 = (Return false, w2).
Proof.
  intros Hfind Hincl. apply verifyOtp_absent. intros r2 Hr2.
  apply Hincl in Hr2. rewrite verifyOtp_unfold, Hfind in Hr2.
  simpl in Hr2. now apply purged_no_match in Hr2.
Qed.

(** C1 - one-time use.  Whenever [verifyOtp email code] returns [true],
    the same call has removed every row matching (email, code) and nothing
    else, and a second call with the same arguments, in any later world
    whose otp rows all come from the table that call left (no new record
    in between), returns [false]. *)
Theorem verifyOtp_one_time_use (e c : string) (w : World) :
  outcome (verifyOtp e c w) = Return true ->
  otpRepo (after (verifyOtp e c w))
    = filter (fun r => negb (otp_matches e c r)) (otpRepo w) /\
  (forall r, In r (otpRepo (after (verifyOtp e c w))) ->
             otp_matches e c r = false) /\
  (forall w2, incl (otpRepo w2) (otpRepo (after (verifyOtp e c w))) ->
              verifyOtp e c w2 = (Return false, w2)).
Proof.
  intros Htrue.
  destruct (find (otp_matches e c) (otpRepo w)) as [r|] eqn:Hfind.
  - assert (Hrows : otpRepo (after (verifyOtp e c w))
                    = filter (fun r => negb (otp_matches e c r)) (otpRepo w)).
    { rewrite verifyOtp_unfold, Hfind. reflexivity. }
    split; [exact Hrows|]. split.
    + intros r2 Hr2. rewrite Hrows in Hr2. now apply purged_no_match in Hr2.
    + intros w2 Hincl. now apply (verifyOtp_after_purge e c w w2 r).
  - rewrite verifyOtp_unfold, Hfind in Htrue. discriminate.
Qed.

(** C3, as amended - expiry.  For the row the lookup finds for
    (email, code): a clock strictly past [expiresAt] makes [verifyOtp]
    return [false]; a clock at or before [expiresAt] (the boundary
    included) makes it return [true]; either way every matching row is
    deleted and the same code does not verify again afterwards. *)
Theorem verifyOtp_expiry (e c : string) (w : World) (r : Otp) :
  find (otp_matches e c) (otpRepo w) = Some r ->
  (expiresAt r < clock w -> outcome (verifyOtp e c w) = Return false) /\
  (clock w <= expiresAt r -> outcome (verifyOtp e c w) = Return true) /\
  otpRepo (after (verifyOtp e c w))
    = filter (fun r => negb (otp_matches e c r)) (otpRepo w) /\
  (forall w2, incl (otpRepo w2) (otpRepo (after (verifyOtp e c w))) ->
              verifyOtp e c w2 = (Return false, w2)).
Proof.
  intros Hfind. repeat split.
  - intros Hlt. rewrite verifyOtp_unfold, Hfind. unfold outcome; simpl.
    apply Z.ltb_lt in Hlt. now rewrite Hlt.
  - intros Hle. rewrite verifyOtp_unfold, Hfind. unfold outcome; simpl.
    apply Z.ltb_ge in Hle. now rewrite Hle.
  - rewrite verifyOtp_unfold, Hfind. reflexivity.
  - intros w2 Hincl. now apply (verifyOtp_after_purge e c w w2 r).
Qed.

(** ** Credentials *)

(** What [validateUser] does, by the row the lookup finds. *)
Lemma validateUser_unfold (e pw : string) (w : World) :
  validateUser e pw w =
  match find (fun u => (email u =? e)%string) (userRepo w) with
  | Some u =>
      if passwordService_compare pw (password u) then (Return u, w)
      else (Throw (Http (UnauthorizedException "Invalid credentials")), w)
  | None => (Throw (Http (UnauthorizedException "Invalid credentials")), w)
  end.
Proof.
  unfold validateUser, bind, usersService_findOne.
  destruct (find _ (userRepo w)) as [u|]; [|reflexivity].
  destruct (passwordService_compare pw (password u)); reflexivity.
Qed.

(** C8 - credential validation.  [validateUser email password] returns an
    identity [u] exactly when the lookup by email finds [u] and the stored
    hash matches the password; in every other case it throws
    [UnauthorizedException('Invalid credentials')]; it throws nothing
    else, and writes nothing. *)
Theorem validateUser_iff_hash_matches (e pw : string) (w : World) :
  (forall u,
      outcome (validateUser e pw w) = Return u <->
      (find (fun u => (email u =? e)%string) (userRepo w) = Some u /\
       passwordService_compare pw (password u) = true)) /\
  ((forall u, outcome (validateUser e pw w) <> Return u) ->
   outcome (validateUser e pw w)
     = Throw (Http (UnauthorizedException "Invalid credentials"))) /\
  (forall err,
      outcome (validateUser e pw w) = Throw err ->
      err = Http (UnauthorizedException "Invalid credentials")) /\
  after (validateUser e pw w) = w.
Proof.
  rewrite validateUser_unfold.
  destruct (find _ (userRepo w)) as [u|] eqn:Hfind.
  - destruct (passwordService_compare pw (password u)) eqn:Hcmp;
      unfold outcome, after; simpl.
    + split; [|split; [|split]].
      * intros u'. split.
        -- intros H. inversion H; subst. now split.
        -- intros [H _]. now inversion H.
      * intros H. now elim (H u).
      * discriminate.
      * reflexivity.
    + split; [|split; [|split]].
      * intros u'. split.
        -- discriminate.
        -- intros [H Hc]. inversion H; subst. congruence.
      * reflexivity.
      * intros err H. now inversion H.
      * reflexivity.
  - unfold outcome, after; simpl.
    split; [|split; [|split]].
    + intros u'. split.
      * discriminate.
      * intros [H _]; discriminate.
    + reflexivity.
    + intros err H. now inversion H.
    + reflexivity.
Qed.

(** ** Requesting a passcode *)

(** What [reuestOtp] does, by the row the lookup finds and the state of
    the mail transport. *)
Lemma reuestOtp_unfold (x : Z) (e : string) (w : World) :
  reuestOtp x e w =
  match find (fun u => (email u =? e)%string) (userRepo w) with
  | None =>
      (Throw (Http (ConflictException "invalid user does not exist")), w)
  | Some _ =>
      let otp := generateOtp x in
      let w1 := set_otpRepo
                  (otpRepo w ++ [mkOtp e otp (clock w + 5 * 60 * 1000)])%list w in
      if mailerUp w
      then (Return tt, set_outbox (outbox w ++ [(e, otp)])%list w1)
      else (Throw (Http (InternalServerErrorException
                           "Failed to generate and send OTP")), w1)
  end.
Proof.
  unfold reuestOtp, reuestOtp_try, try_catch, bind, usersService_findOne,
    Date_now, otpRepo_save, emailService_sendOtpEmail, throw.
  destruct (find _ (userRepo w)) as [u|]; [|reflexivity].
  simpl. destruct (mailerUp w); reflexivity.
Qed.

(** C6, as amended - the user-absent failure is a conflict, and is not
    masked.  For an email with no identity in the store, the [try] block of
    [reuestOtp] throws a [ConflictException] with message 'invalid user
    does not exist', of status 409 (the class [register] throws for an
    email in use; the service has no not-found kind), and [reuestOtp] as a
    whole throws that very exception: the outer handler re-throws it as it
    is, it is not turned into the internal server error, and nothing is
    written. *)
Theorem reuestOtp_user_absent_unmasked (x : Z) (e : string) (w : World) :
  find (fun u => (email u =? e)%string) (userRepo w) = None ->
  reuestOtp_try x e w
    = (Throw (Http (ConflictException "invalid user does not exist")), w) /\
  reuestOtp x e w = reuestOtp_try x e w /\
  outcome (reuestOtp x e w)
    <> Throw (Http (InternalServerErrorException
                      "Failed to generate and send OTP")) /\
  exists ex,
    outcome (reuestOtp x e w) = Throw (Http ex) /\
    getStatus ex = HttpStatus_CONFLICT.
Proof.
  intros Hfind.
  assert (Htry : reuestOtp_try x e w
            = (Throw (Http (ConflictException "invalid user does not exist")), w)).
  { unfold reuestOtp_try, bind, usersService_findOne. now rewrite Hfind. }
  split; [exact Htry|]. split; [|split].
  - unfold reuestOtp, try_catch. now rewrite Htry.
  - rewrite reuestOtp_unfold, Hfind. discriminate.
  - rewrite reuestOtp_unfold, Hfind. eexists. split; reflexivity.
Qed.

(** C4, as amended - what a failure tells about the email.
    [validateUser] fails in one and the same way,
    [UnauthorizedException('Invalid credentials')], for an email that is
    not in the store and for an email that is there with a password that
    does not match.  [reuestOtp] does tell: it throws
    [ConflictException('invalid user does not exist')] exactly when the
    email is not in the store. *)
Theorem validateUser_hides_reuestOtp_tells :
  (forall e pw w w' u,
      find (fun u => (email u =? e)%string) (userRepo w) = None ->
      find (fun u => (email u =? e)%string) (userRepo w') = Some u ->
      passwordService_compare pw (password u) = false ->
      outcome (validateUser e pw w) = outcome (validateUser e pw w') /\
      outcome (validateUser e pw w)
        = Throw (Http (UnauthorizedException "Invalid credentials"))) /\
  (forall x e w,
      outcome (reuestOtp x e w)
        = Throw (Http (ConflictException "invalid user does not exist")) <->
      find (fun u => (email u =? e)%string) (userRepo w) = None).
Proof.
  split.
  - intros e pw w w' u Habsent Hpresent Hcmp.
    rewrite !validateUser_unfold, Habsent, Hpresent, Hcmp. now split.
  - intros x e w. rewrite reuestOtp_unfold.
    destruct (find _ (userRepo w)) as [u|].
    + simpl. destruct (mailerUp w); split; discriminate.
    + now split.
Qed.

(** ** Tokens *)

Lemma ms_15m : JS.ms "15m" = Some (15 * 60 * 1000).
Proof. reflexivity. Qed.

Lemma ms_7d : JS.ms "7d" = Some (7 * 24 * 60 * 60 * 1000).
Proof. reflexivity. Qed.

(** [login] never throws and writes nothing: it signs the same payload
    twice, for 900 seconds and for 604800 seconds. *)
Lemma login_unfold (user : User) (w : World) :
  login user w =
  (Return (Session.mk
             (Jwt.Signed jwtSecret (claims_of user (clock w) 900))
             (Jwt.Signed jwtSecret (claims_of user (clock w) 604800))),
   w).
Proof.
  unfold login, bind, Jwt.sign, ret. rewrite ms_15m, ms_7d. reflexivity.
Qed.

(** [jwtService.verify] on a token signed with the service's secret. *)
Lemma verify_signed (claims : Jwt.Payload) (w : World) :
  Jwt.verify jwtSecret (Jwt.Signed jwtSecret claims) w =
  if Jwt.exp claims <=? clock w / 1000
  then (Throw (Other "TokenExpiredError" "jwt expired"), w)
  else (Return claims, w).
Proof.
  unfold Jwt.verify. now rewrite String.eqb_refl.
Qed.

(** C7 - token round trip.  [login] returns an access token and a refresh
    token.  Verifying the access token while the clock (in whole seconds,
    as jsonwebtoken reads it) is less than 900 seconds = 15 minutes past
    the issue time gives back claims whose [sub] is the identity's id and
    whose [email] is its email; from 900 seconds on the verification fails
    with [TokenExpiredError].  The refresh token does the same with
    604800 seconds = 7 days. *)
Theorem login_token_round_trip (user : User) (w : World) :
  exists a r,
    login user w = (Return (Session.mk a r), w) /\
    (forall w', clock w' / 1000 < clock w / 1000 + 15 * 60 ->
       exists claims,
         Jwt.verify jwtSecret a w' = (Return claims, w') /\
         Jwt.sub claims = id user /\ Jwt.email claims = email user) /\
    (forall w', clock w / 1000 + 15 * 60 <= clock w' / 1000 ->
       Jwt.verify jwtSecret a w'
         = (Throw (Other "TokenExpiredError" "jwt expired"), w')) /\
    (forall w', clock w' / 1000 < clock w / 1000 + 7 * 24 * 60 * 60 ->
       exists claims,
         Jwt.verify jwtSecret r w' = (Return claims, w') /\
         Jwt.sub claims = id user /\ Jwt.email claims = email user) /\
    (forall w', clock w / 1000 + 7 * 24 * 60 * 60 <= clock w' / 1000 ->
       Jwt.verify jwtSecret r w'
         = (Throw (Other "TokenExpiredError" "jwt expired"), w')).
Proof.
  eexists. eexists. split; [apply login_unfold|].
  repeat split.
  - intros w' Hlive. exists (claims_of user (clock w) 900).
    rewrite verify_signed. simpl.
    destruct (Z.leb_spec (clock w / 1000 + 900) (clock w' / 1000)); [lia|].
    now repeat split.
  - intros w' Hdead. rewrite verify_signed. simpl.
    destruct (Z.leb_spec (clock w / 1000 + 900) (clock w' / 1000)); [|lia].
    reflexivity.
  - intros w' Hlive. exists (claims_of user (clock w) 604800).
    rewrite verify_signed. simpl.
    destruct (Z.leb_spec (clock w / 1000 + 604800) (clock w' / 1000)); [lia|].
    now repeat split.
  - intros w' Hdead. rewrite verify_signed. simpl.
    destruct (Z.leb_spec (clock w / 1000 + 604800) (clock w' / 1000)); [|lia].
    reflexivity.
Qed.

(** What [refreshToken] does, by what [jwtService.verify] and the lookup
    by the embedded email give. *)
Lemma refreshToken_unfold (token : Jwt.Token) (w : World) :
  refreshToken token w =
  match Jwt.verify jwtSecret token w with
  | (Return decoded, _) =>
      match find (fun u => (email u =? Jwt.email decoded)%string) (userRepo w) with
      | Some user => login user w
      | None =>
          (Throw (Http (UnauthorizedException
                          "Invalid or expired refresh token")), w)
      end
  | (Throw _, _) =>
      (Throw (Http (UnauthorizedException
                      "Invalid or expired refresh token")), w)
  end.
Proof.
  unfold refreshToken, try_catch, bind, usersService_findOne.
  destruct token as [raw|key claims]; simpl; [now destruct raw|].
  destruct (negb (key =? jwtSecret)%string); [reflexivity|].
  destruct (Jwt.exp claims <=? clock w / 1000); [reflexivity|].
  destruct (find _ (userRepo w)) as [user|]; [|reflexivity].
  now rewrite login_unfold.
Qed.

(** C9 - refresh flow.  [refreshToken] succeeds exactly on a token signed
    with the service's secret whose [exp] is still ahead of the clock and
    whose embedded email still has an identity in the store; it then
    returns what [login] returns for that identity, a new access and a
    new refresh token.  In every other case (malformed token, other
    signature, expired, identity gone) it throws
    [UnauthorizedException('Invalid or expired refresh token')] and
    returns no tokens.  In particular the refresh token of a login made 8
    days earlier is refused that way. *)
Theorem refreshToken_flow (token : Jwt.Token) (w : World) :
  (forall claims user,
      token = Jwt.Signed jwtSecret claims ->
      clock w / 1000 < Jwt.exp claims ->
      find (fun u => (email u =? Jwt.email claims)%string) (userRepo w)
        = Some user ->
      refreshToken token w = login user w /\
      refreshToken token w =
        (Return (Session.mk
                   (Jwt.Signed jwtSecret (claims_of user (clock w) 900))
                   (Jwt.Signed jwtSecret (claims_of user (clock w) 604800))),
         w)) /\
  ((forall claims user,
       token = Jwt.Signed jwtSecret claims ->
       clock w / 1000 < Jwt.exp claims ->
       find (fun u => (email u =? Jwt.email claims)%string) (userRepo w)
         <> Some user) ->
   refreshToken token w =
     (Throw (Http (UnauthorizedException "Invalid or expired refresh token")),
      w)) /\
  (forall user w0 s,
      outcome (login user w0) = Return s ->
      token = Session.refreshToken s ->
      clock w = clock w0 + 8 * 24 * 60 * 60 * 1000 ->
      refreshToken token w =
        (Throw (Http (UnauthorizedException "Invalid or expired refresh token")),
         w)).
Proof.
  split; [|split].
  - intros claims user -> Hlive Hfind.
    rewrite refreshToken_unfold, verify_signed.
    destruct (Z.leb_spec (Jwt.exp claims) (clock w / 1000)); [lia|].
    rewrite Hfind. split; [reflexivity|apply login_unfold].
  - intros Hnone. rewrite refreshToken_unfold.
    destruct token as [raw|key claims]; simpl; [now destruct raw|].
    destruct (String.eqb_spec key jwtSecret) as [->|]; simpl; [|reflexivity].
    destruct (Z.leb_spec (Jwt.exp claims) (clock w / 1000)); [reflexivity|].
    destruct (find _ (userRepo w)) as [user|] eqn:Hfind; [|reflexivity].
    exfalso. apply (Hnone claims user eq_refl); [lia|exact Hfind].
  - intros user w0 s Hlogin -> Hclock.
    rewrite login_unfold in Hlogin. unfold outcome in Hlogin; simpl in Hlogin.
    inversion Hlogin; subst s; simpl.
    rewrite refreshToken_unfold, verify_signed. simpl.
    destruct (Z.leb_spec (clock w0 / 1000 + 604800) (clock w / 1000));
      [reflexivity|].
    exfalso. rewrite Hclock in *.
    replace (clock w0 + 8 * 24 * 60 * 60 * 1000)
      with (clock w0 + 691200 * 1000) in * by lia.
    rewrite Z.div_add in * by lia. lia.
Qed.

(** ** Wallet linking *)

Lemma find_some_existsb {A} (f g : A -> bool) (l : list A) (x : A) :
  find f l = Some x -> g x = true -> existsb g l = true.
Proof.
  intros Hfind Hg. apply find_some in Hfind. destruct Hfind as [Hin _].
  apply existsb_exists. now exists x.
Qed.

(** Looking a row up by its key after it has been replaced. *)
Lemma find_replaced (i : string) (old new : User) (rows : list User) :
  find (fun u => (id u =? i)%string) rows = Some old ->
  id new = i ->
  find (fun u => (id u =? i)%string)
       (map (fun u => if (id u =? i)%string then new else u) rows) = Some new.
Proof.
  intros Hfind Hid. induction rows as [|u rows IH]; simpl in *; [discriminate|].
  destruct (String.eqb_spec (id u) i) as [Hu|Hu].
  - rewrite Hid, String.eqb_refl. reflexivity.
  - destruct (String.eqb_spec (id u) i); [contradiction|]. now apply IH.
Qed.

Lemma append_inj_r (p a b : string) : p ++ a = p ++ b -> a = b.
Proof.
  induction p as [|c p IH]; simpl; intros H; [exact H|].
  inversion H. now apply IH.
Qed.

(** What [linkWallet] does, by the row found, the recovery and the
    comparison of the addresses. *)
Lemma linkWallet_unfold (uuid : string) (userId : Z)
    (address signature : string) (w : World) :
  linkWallet uuid userId address signature w =
  match find (fun u => (id u =? JS.toString userId)%string) (userRepo w) with
  | None => (Throw (Http (UnauthorizedException "User not found")), w)
  | Some user =>
      match ethers_verifyMessage (challenge user) signature with
      | None => (Throw (Http (UnauthorizedException "Invalid signature")), w)
      | Some recovered =>
          if (JS.toLowerCase recovered =? JS.toLowerCase address)%string
          then
            let saved := mkUser (id user) (email user) (password user)
                                (Some address) uuid in
            (Return saved,
             set_userRepo
               (map (fun u => if (id u =? JS.toString userId)%string
                              then saved else u) (userRepo w)) w)
          else
            (Throw (Http (UnauthorizedException
                            "Signature verification failed")), w)
      end
  end.
Proof.
  unfold linkWallet, bind, userRepo_findOne, throw.
  destruct (find _ (userRepo w)) as [user|] eqn:Hfind; [|reflexivity].
  destruct (ethers_verifyMessage (challenge user) signature) as [rec|];
    [|reflexivity].
  destruct (JS.toLowerCase rec =? JS.toLowerCase address)%string;
    [|reflexivity].
  simpl. unfold userRepo_save. simpl.
  assert (Hid : id user = JS.toString userId).
  { apply find_some in Hfind. destruct Hfind as [_ H].
    now apply String.eqb_eq in H. }
  rewrite Hid.
  rewrite (find_some_existsb _ _ _ _ Hfind)
    by (rewrite Hid; apply String.eqb_refl).
  reflexivity.
Qed.

(** C10 - a failed link writes nothing.  Whenever [linkWallet] throws
    (user not found, invalid signature, recovered address different from
    the claimed one), the world after the call is the world before it:
    the users table, with every [walletAddress] and [walletNonce], is
    untouched. *)
Theorem linkWallet_failure_writes_nothing (uuid : string) (userId : Z)
    (address signature : string) (w : World) (err : Error) :
  outcome (linkWallet uuid userId address signature w) = Throw err ->
  after (linkWallet uuid userId address signature w) = w /\
  userRepo (after (linkWallet uuid userId address signature w)) = userRepo w /\
  (err = Http (UnauthorizedException "User not found") \/
   err = Http (UnauthorizedException "Invalid signature") \/
   err = Http (UnauthorizedException "Signature verification failed")).
Proof.
  rewrite linkWallet_unfold.
  destruct (find _ (userRepo w)) as [user|].
  - destruct (ethers_verifyMessage (challenge user) signature) as [rec|].
    + destruct (JS.toLowerCase rec =? JS.toLowerCase address)%string;
        unfold outcome, after; simpl; intros H; [discriminate|].
      inversion H. auto.
    + unfold outcome, after; simpl; intros H. inversion H. auto.
  - unfold outcome, after; simpl; intros H. inversion H. auto.
Qed.

(** C2, as amended - nonce rotation.  A [linkWallet] call that succeeds
    stores the claimed address and replaces the nonce of the challenge by
    the value drawn in that call; when that value is fresh (different from
    the nonce just used) the stored nonce differs from the one the
    challenge was built from and, the recovery binding the message,
    sending the same address and signature again is refused as
    unauthorized and changes nothing.  A call refused because the
    recovered address is not the claimed one leaves the identity, its
    nonce included, as it was. *)
Theorem linkWallet_rotates_on_success (uuid : string) (userId : Z)
    (address signature : string) (w : World) (user : User) :
  find (fun u => (id u =? JS.toString userId)%string) (userRepo w) = Some user ->
  (forall saved,
      outcome (linkWallet uuid userId address signature w) = Return saved ->
      let w' := after (linkWallet uuid userId address signature w) in
      find (fun u => (id u =? JS.toString userId)%string) (userRepo w')
        = Some saved /\
      walletNonce saved = uuid /\
      walletAddress saved = Some address /\
      (uuid <> walletNonce user ->
       walletNonce saved <> walletNonce user /\
       (recovery_binds_message ->
        forall uuid2, exists msg,
          linkWallet uuid2 userId address signature w'
            = (Throw (Http (UnauthorizedException msg)), w')))) /\
  (outcome (linkWallet uuid userId address signature w)
     = Throw (Http (UnauthorizedException "Signature verification failed")) ->
   find (fun u => (id u =? JS.toString userId)%string)
        (userRepo (after (linkWallet uuid userId address signature w)))
     = Some user).
Proof.
  intros Hfind. rewrite linkWallet_unfold, Hfind.
  destruct (ethers_verifyMessage (challenge user) signature) as [rec|] eqn:Hrec.
  2:{ split; unfold outcome, after; simpl; [discriminate|now intros _]. }
  destruct (String.eqb_spec (JS.toLowerCase rec) (JS.toLowerCase address))
    as [Hsame|Hdiff].
  2:{ split; unfold outcome, after; simpl; [discriminate|now intros _]. }
  split; [|unfold outcome; simpl; discriminate].
  intros saved Hret. unfold outcome in Hret; simpl in Hret.
  inversion Hret; subst saved; clear Hret. unfold after; simpl.
  assert (Hid : id user = JS.toString userId).
  { apply find_some in Hfind. destruct Hfind as [_ H].
    now apply String.eqb_eq in H. }
  assert (Hfind' :
    find (fun u => (id u =? JS.toString userId)%string)
         (map (fun u => if (id u =? JS.toString userId)%string
                        then mkUser (id user) (email user) (password user)
                                    (Some address) uuid
                        else u) (userRepo w))
    = Some (mkUser (id user) (email user) (password user) (Some address) uuid)).
  { now apply (find_replaced _ user). }
  split; [exact Hfind'|]. split; [reflexivity|]. split; [reflexivity|].
  intros Hfresh. split; [exact Hfresh|].
  intros Hbinds uuid2. rewrite linkWallet_unfold.
  cbn [userRepo set_userRepo]. rewrite Hfind'.
  set (saved := mkUser (id user) (email user) (password user)
                       (Some address) uuid).
  destruct (ethers_verifyMessage (challenge saved) signature)
    as [rec2|] eqn:Hrec2.
  - destruct (String.eqb_spec (JS.toLowerCase rec2) (JS.toLowerCase address))
      as [Hsame2|Hdiff2].
    + exfalso. apply Hfresh.
      assert (Hmsg := Hbinds _ _ _ _ _ Hrec2 Hrec (eq_trans Hsame2 (eq_sym Hsame))).
      unfold challenge, saved in Hmsg. cbn [walletNonce] in Hmsg.
      now apply append_inj_r in Hmsg.
    + eexists. reflexivity.
  - eexists. reflexivity.
Qed.

(** ** Decimal rendering and the passcode generator *)

Lemma append_assoc_str (a b c : string) : (a ++ b) ++ c = a ++ (b ++ c).
Proof. induction a as [|x a IH]; simpl; [reflexivity|now rewrite IH]. Qed.

Lemma length_append_str (a b : string) :
  String.length (a ++ b) = (String.length a + String.length b)%nat.
Proof. induction a as [|x a IH]; simpl; [reflexivity|now rewrite IH]. Qed.

(** The accumulator of [toDigits] is a suffix of its result. *)
Lemma toDigits_acc (fuel : nat) : forall n acc,
  JS.toDigits fuel n acc = JS.toDigits fuel n EmptyString ++ acc.
Proof.
  induction fuel as [|fuel IH]; intros n acc; simpl; [reflexivity|].
  destruct (n <? 10); [reflexivity|].
  rewrite (IH (n / 10) (String _ acc)), (IH (n / 10) (String _ EmptyString)).
  now rewrite append_assoc_str.
Qed.

Lemma parseDigits_app (s1 s2 : string) : forall a,
  JS.parseDigits (s1 ++ s2) a = JS.parseDigits s2 (JS.parseDigits s1 a).
Proof.
  induction s1 as [|c s1 IH]; intros a; simpl; [reflexivity|apply IH].
Qed.

Lemma digitVal_digitChar (d : Z) :
  0 <= d < 10 -> JS.digitVal (JS.digitChar d) = d.
Proof.
  intros Hd. unfold JS.digitVal, JS.digitChar.
  rewrite nat_ascii_embedding by lia. lia.
Qed.

(** Reading back what [toDigits] wrote gives the number, with fuel for
    every digit. *)
Lemma parse_toDigits (fuel : nat) : forall n,
  0 <= n < 2 ^ Z.of_nat fuel ->
  JS.parseDigits (JS.toDigits fuel n EmptyString) 0 = n.
Proof.
  induction fuel as [|fuel IH]; intros n Hn.
  - simpl in *. lia.
  - simpl JS.toDigits. destruct (Z.ltb_spec n 10) as [Hlt|Hge].
    + cbn [JS.parseDigits]. rewrite digitVal_digitChar; lia.
    + rewrite toDigits_acc, parseDigits_app, IH.
      * cbn [JS.parseDigits].
        rewrite digitVal_digitChar by (apply Z.mod_pos_bound; lia).
        pose proof (Z.div_mod n 10). lia.
      * rewrite Nat2Z.inj_succ, Z.pow_succ_r in Hn by lia.
        split; [apply Z.div_pos; lia|].
        apply Z.div_lt_upper_bound; lia.
Qed.

Lemma parse_decimal (n : Z) :
  0 <= n -> JS.parseDigits (JS.decimal n) 0 = n.
Proof.
  intros Hn. unfold JS.decimal. apply parse_toDigits.
  split; [exact Hn|].
  rewrite Nat2Z.inj_succ, Z2Nat.id by apply Z.log2_nonneg.
  destruct (Z.eq_dec n 0) as [->|Hnz]; [reflexivity|].
  apply Z.log2_spec. lia.
Qed.

(** A number of [k + 1] decimal digits is rendered on [k + 1] characters. *)
Lemma length_toDigits (k : nat) : forall fuel n,
  (k < fuel)%nat ->
  10 ^ Z.of_nat k <= n < 10 ^ Z.of_nat (S k) ->
  String.length (JS.toDigits fuel n EmptyString) = S k.
Proof.
  induction k as [|k IH]; intros fuel n Hfuel Hn;
    (destruct fuel as [|fuel]; [lia|]); simpl JS.toDigits.
  - change (10 ^ Z.of_nat 1) with 10 in Hn.
    destruct (Z.ltb_spec n 10); [reflexivity|lia].
  - rewrite !Nat2Z.inj_succ, !Z.pow_succ_r in Hn by lia.
    assert (0 < 10 ^ Z.of_nat k) by (apply Z.pow_pos_nonneg; lia).
    destruct (Z.ltb_spec n 10); [lia|].
    rewrite toDigits_acc, length_append_str, (IH fuel (n / 10)).
    + simpl. lia.
    + lia.
    + rewrite Nat2Z.inj_succ, Z.pow_succ_r by lia. split.
      * apply Z.div_le_lower_bound; lia.
      * apply Z.div_lt_upper_bound; lia.
Qed.

Lemma length_decimal_6 (n : Z) :
  100000 <= n <= 999999 -> String.length (JS.decimal n) = 6%nat.
Proof.
  intros Hn. unfold JS.decimal. apply (length_toDigits 5).
  - assert (16 <= Z.log2 n).
    { change 16 with (Z.log2 100000). apply Z.log2_le_mono. lia. }
    lia.
  - change (10 ^ Z.of_nat 5) with 100000.
    change (10 ^ Z.of_nat 6) with 1000000. lia.
Qed.

Lemma isDigit_digitChar (d : Z) :
  0 <= d < 10 -> JS.isDigit (JS.digitChar d) = true.
Proof.
  intros Hd. unfold JS.isDigit, JS.digitChar.
  rewrite nat_ascii_embedding by lia.
  apply andb_true_iff. split; apply Nat.leb_le; lia.
Qed.

Lemma allDigits_toDigits (fuel : nat) : forall n acc,
  0 <= n -> JS.allDigits acc = true ->
  JS.allDigits (JS.toDigits fuel n acc) = true.
Proof.
  induction fuel as [|fuel IH]; intros n acc Hn Hacc; simpl; [exact Hacc|].
  destruct (Z.ltb_spec n 10).
  - cbn [JS.allDigits]. rewrite isDigit_digitChar by lia. exact Hacc.
  - apply IH; [apply Z.div_pos; lia|].
    cbn [JS.allDigits].
    rewrite isDigit_digitChar by (apply Z.mod_pos_bound; lia). exact Hacc.
Qed.

(** C5 - the code space of [generateOtp].  Whatever the draw, the code is
    the decimal rendering of a number between 100000 and 999998: six
    characters, all digits, no leading zero lost, and every number of that
    range is produced by some draw - but the code is never 999999, the
    upper end the range should include, because the upper bound of
    [randomInt] is exclusive. *)
Theorem generateOtp_never_999999 (x : Z) :
  let n := x mod 899999 + 100000 in
  100000 <= n <= 999998 /\
  generateOtp x = JS.toString n /\
  String.length (generateOtp x) = 6%nat /\
  JS.allDigits (generateOtp x) = true /\
  JS.parseDigits (generateOtp x) 0 = n /\
  generateOtp x <> "999999" /\
  (forall m, 100000 <= m <= 999998 ->
             generateOtp (m - 100000) = JS.toString m).
Proof.
  intros n.
  assert (Hn : 100000 <= n <= 999998).
  { subst n. pose proof (Z.mod_pos_bound x 899999). lia. }
  assert (Hgen : generateOtp x = JS.decimal n).
  { unfold generateOtp, JS.randomInt, JS.toString.
    change (999999 - 100000) with 899999. fold n.
    destruct (Z.ltb_spec n 0); [lia|reflexivity]. }
  assert (Hparse : JS.parseDigits (generateOtp x) 0 = n).
  { rewrite Hgen. apply parse_decimal. lia. }
  split; [exact Hn|]. split.
  { unfold generateOtp, JS.randomInt. reflexivity. }
  split. { rewrite Hgen. apply length_decimal_6. lia. }
  split. { rewrite Hgen. apply allDigits_toDigits; [lia|reflexivity]. }
  split; [exact Hparse|]. split.
  - intros Heq. rewrite Heq in Hparse.
    change (JS.parseDigits "999999" 0) with 999999 in Hparse. lia.
  - intros m Hm. unfold generateOtp, JS.randomInt.
    change (999999 - 100000) with 899999.
    rewrite Z.mod_small by lia. f_equal. lia.
Qed.

(** ** Passcodes from request to verification *)

Lemma find_app_none {A} (f : A -> bool) (l l' : list A) :
  find f l = None -> find f (l ++ l')%list = find f l'.
Proof.
  induction l as [|a l IH]; simpl; [reflexivity|].
  destruct (f a); [discriminate|exact IH].
Qed.

Lemma find_app_some {A} (f : A -> bool) (l l' : list A) (x : A) :
  find f l = Some x -> find f (l ++ l')%list = Some x.
Proof.
  induction l as [|a l IH]; simpl; [discriminate|].
  destruct (f a); [trivial|exact IH].
Qed.

(** A row matches one (email, code) pair only. *)
Lemma otp_matches_pair (e c e' c' : string) (r : Otp) :
  otp_matches e c r = true -> otp_matches e' c' r = true -> e = e' /\ c = c'.
Proof.
  unfold otp_matches. intros H H'.
  apply andb_true_iff in H. apply andb_true_iff in H'.
  destruct H as [He Hc], H' as [He' Hc'].
  apply String.eqb_eq in He, Hc, He', Hc'. split; congruence.
Qed.

(** Filtering rows out does not change a lookup that only hits rows kept. *)
Lemma find_filter_kept {A} (f keep : A -> bool) (l : list A) :
  (forall x, f x = true -> keep x = true) ->
  find f (filter keep l) = find f l.
Proof.
  intros Hkept. induction l as [|a l IH]; simpl; [reflexivity|].
  destruct (f a) eqn:Hf.
  - rewrite (Hkept a Hf). simpl. now rewrite Hf.
  - destruct (keep a); simpl; [now rewrite Hf|exact IH].
Qed.

(** What a passcode request leaves in the otp table when the email is
    known, whether or not the mail goes out. *)
Lemma reuestOtp_rows (x : Z) (e : string) (w : World) (u : User) :
  find (fun u => (email u =? e)%string) (userRepo w) = Some u ->
  otpRepo (after (reuestOtp x e w))
    = (otpRepo w ++ [mkOtp e (generateOtp x) (clock w + 5 * 60 * 1000)])%list.
Proof.
  intros Hfind. rewrite reuestOtp_unfold, Hfind.
  cbv zeta. destruct (mailerUp w); reflexivity.
Qed.

Lemma otp_matches_own (e c : string) (t : Z) :
  otp_matches e c (mkOtp e c t) = true.
Proof. unfold otp_matches. simpl. now rewrite !String.eqb_refl. Qed.

(** The verdict on a freshly requested code, in a world holding the table
    the request left. *)
Lemma verify_requested (x : Z) (e : string) (w w2 : World) (u : User) :
  find (fun u => (email u =? e)%string) (userRepo w) = Some u ->
  (forall r, In r (otpRepo w) -> otp_matches e (generateOtp x) r = false) ->
  otpRepo w2 = otpRepo (after (reuestOtp x e w)) ->
  outcome (verifyOtp e (generateOtp x) w2)
    = Return (clock w2 <=? clock w + 5 * 60 * 1000).
Proof.
  intros Hfind Hnew Hrows.
  rewrite verifyOtp_unfold, Hrows, (reuestOtp_rows x e w u Hfind).
  rewrite (find_app_none _ _ _ (find_all_false _ _ Hnew)).
  cbn [find]. rewrite otp_matches_own. unfold outcome; cbn [fst expiresAt].
  now rewrite Z.leb_antisym.
Qed.

(** X1 - from request to verification.  A request for a known email with
    the mail transport up returns, hands the transport the code it stored,
    and - no older row carrying the same (email, code) - that code verifies
    in any world holding the table the request left exactly as long as the
    clock is at most 5 minutes (300000 ms, the bound included) past the
    request. *)
Theorem reuestOtp_then_verifyOtp (x : Z) (e : string) (w w2 : World) (u : User) :
  find (fun u => (email u =? e)%string) (userRepo w) = Some u ->
  mailerUp w = true ->
  (forall r, In r (otpRepo w) -> otp_matches e (generateOtp x) r = false) ->
  otpRepo w2 = otpRepo (after (reuestOtp x e w)) ->
  outcome (reuestOtp x e w) = Return tt /\
  In (e, generateOtp x) (outbox (after (reuestOtp x e w))) /\
  outcome (verifyOtp e (generateOtp x) w2)
    = Return (clock w2 <=? clock w + 5 * 60 * 1000).
Proof.
  intros Hfind Hup Hnew Hrows. split; [|split].
  - rewrite reuestOtp_unfold, Hfind. cbv zeta. now rewrite Hup.
  - rewrite reuestOtp_unfold, Hfind. cbv zeta. rewrite Hup.
    unfold after; cbn [snd outbox set_outbox].
    apply in_or_app. right. now left.
  - now apply (verify_requested x e w w2 u).
Qed.

(** X2 - a failed delivery leaves a code behind.  With the mail transport
    down a request for a known email throws the internal server error and
    mails nothing, but the row written before the failure stays in the
    table; when no older row carries the same (email, code), the code
    nobody received verifies right after. *)
Theorem reuestOtp_mail_failure_keeps_code (x : Z) (e : string) (w : World)
    (u : User) :
  find (fun u => (email u =? e)%string) (userRepo w) = Some u ->
  mailerUp w = false ->
  outcome (reuestOtp x e w)
    = Throw (Http (InternalServerErrorException
                     "Failed to generate and send OTP")) /\
  outbox (after (reuestOtp x e w)) = outbox w /\
  otpRepo (after (reuestOtp x e w))
    = (otpRepo w ++ [mkOtp e (generateOtp x) (clock w + 5 * 60 * 1000)])%list /\
  ((forall r, In r (otpRepo w) -> otp_matches e (generateOtp x) r = false) ->
   outcome (verifyOtp e (generateOtp x) (after (reuestOtp x e w)))
     = Return true).
Proof.
  intros Hfind Hdown. split; [|split; [|split]].
  - rewrite reuestOtp_unfold, Hfind. cbv zeta. now rewrite Hdown.
  - rewrite reuestOtp_unfold, Hfind. cbv zeta. now rewrite Hdown.
  - apply (reuestOtp_rows x e w u Hfind).
  - intros Hnew. rewrite (verify_requested x e w _ u Hfind Hnew eq_refl).
    assert (Hclock : clock (after (reuestOtp x e w)) = clock w).
    { rewrite reuestOtp_unfold, Hfind. cbv zeta. now rewrite Hdown. }
    rewrite Hclock. f_equal. apply Z.leb_le. lia.
Qed.

(** X3 - what a passcode request can end in.  [reuestOtp] returns exactly
    when the email is known and the mail transport delivers; it throws the
    conflict 'invalid user does not exist' exactly when the email is
    unknown, and the internal server error exactly when the email is known
    and the delivery fails.  Whatever it throws is an [HttpException], and
    the users table is never written. *)
Theorem reuestOtp_outcomes (x : Z) (e : string) (w : World) :
  (outcome (reuestOtp x e w) = Return tt <->
   (find (fun u => (email u =? e)%string) (userRepo w) <> None /\
    mailerUp w = true)) /\
  (outcome (reuestOtp x e w)
     = Throw (Http (InternalServerErrorException
                      "Failed to generate and send OTP")) <->
   (find (fun u => (email u =? e)%string) (userRepo w) <> None /\
    mailerUp w = false)) /\
  (forall err, outcome (reuestOtp x e w) = Throw err ->
               instanceof_HttpException err = true) /\
  userRepo (after (reuestOtp x e w)) = userRepo w.
Proof.
  rewrite reuestOtp_unfold.
  destruct (find _ (userRepo w)) as [u|]; cbv zeta.
  - destruct (mailerUp w); unfold outcome, after; cbn [fst snd];
      (split; [|split; [|split]]); try reflexivity.
    + split; [intros _; split; [discriminate|reflexivity]|reflexivity].
    + split; [discriminate|intros [_ H]; discriminate].
    + discriminate.
    + split; [discriminate|intros [_ H]; discriminate].
    + split; [intros _; split; [discriminate|reflexivity]|reflexivity].
    + intros err H. now inversion H.
  - unfold outcome, after; cbn [fst snd]. split; [|split; [|split]].
    + split; [discriminate|intros [H _]; now elim H].
    + split; [discriminate|intros [H _]; now elim H].
    + intros err H. now inversion H.
    + reflexivity.
Qed.

(** X4 - verifications of different pairs do not interfere.  For
    (email', code') different from (email, code), verifying (email, code),
    with whatever result, leaves the verdict on (email', code') as it was:
    a wrong guess, or another user's verification, consumes nothing but its
    own rows. *)
Theorem verifyOtp_other_pair_untouched (e c e' c' : string) (w : World) :
  (e, c) <> (e', c') ->
  outcome (verifyOtp e' c' (after (verifyOtp e c w)))
    = outcome (verifyOtp e' c' w) /\
  (forall r, In r (otpRepo w) -> otp_matches e c r = false ->
             In r (otpRepo (after (verifyOtp e c w)))).
Proof.
  intros Hdiff.
  assert (Hkept : forall r, otp_matches e' c' r = true ->
                            negb (otp_matches e c r) = true).
  { intros r Hr. destruct (otp_matches e c r) eqn:Hm; [|reflexivity].
    destruct (otp_matches_pair _ _ _ _ _ Hm Hr). subst. now elim Hdiff. }
  split.
  - rewrite (verifyOtp_unfold e c w).
    destruct (find (otp_matches e c) (otpRepo w)) as [r|]; [|reflexivity].
    unfold after; cbn [snd]. rewrite !verifyOtp_unfold.
    cbn [otpRepo set_otpRepo clock].
    rewrite (find_filter_kept _ _ _ Hkept).
    destruct (find (otp_matches e' c') (otpRepo w)); reflexivity.
  - intros r Hin Hno. rewrite (verifyOtp_unfold e c w).
    destruct (find (otp_matches e c) (otpRepo w)); [|exact Hin].
    unfold after; cbn [snd otpRepo set_otpRepo].
    apply filter_In. split; [exact Hin|now rewrite Hno].
Qed.

(** X5 - a new request does not cancel earlier codes.  When a row for
    (email', code') is already in the table, a passcode request for any
    email leaves the verdict on (email', code') as it was, at the same
    clock: several codes can be outstanding for one email. *)
Theorem reuestOtp_keeps_earlier_codes (x : Z) (e e' c' : string)
    (w w1 w2 : World) (r : Otp) :
  find (otp_matches e' c') (otpRepo w) = Some r ->
  otpRepo w1 = otpRepo w ->
  otpRepo w2 = otpRepo (after (reuestOtp x e w)) ->
  clock w2 = clock w1 ->
  outcome (verifyOtp e' c' w2) = outcome (verifyOtp e' c' w1).
Proof.
  intros Hfind Hw1 Hw2 Hclock.
  assert (Hfind2 : find (otp_matches e' c') (otpRepo w2) = Some r).
  { rewrite Hw2, reuestOtp_unfold.
    destruct (find _ (userRepo w)); cbv zeta;
      [destruct (mailerUp w)|]; unfold after; cbn [snd otpRepo set_otpRepo set_outbox];
      try (now apply find_app_some); exact Hfind. }
  rewrite !verifyOtp_unfold, Hfind2, Hw1, Hfind, Hclock. reflexivity.
Qed.

(** ** Sessions without a store *)

Lemma find_email_hit (e : string) (rows : list User) (u : User) :
  find (fun u => (email u =? e)%string) rows = Some u -> email u = e.
Proof.
  intros H. apply find_some in H. destruct H as [_ H].
  now apply String.eqb_eq in H.
Qed.

(** When [refreshToken] returns, the token is one of the service's own,
    still alive, and its email resolves. *)
Lemma refreshToken_success (token : Jwt.Token) (w : World) (s : Session.t) :
  outcome (refreshToken token w) = Return s ->
  exists claims u,
    token = Jwt.Signed jwtSecret claims /\
    clock w / 1000 < Jwt.exp claims /\
    find (fun u => (email u =? Jwt.email claims)%string) (userRepo w) = Some u /\
    s = Session.mk (Jwt.Signed jwtSecret (claims_of u (clock w) 900))
                   (Jwt.Signed jwtSecret (claims_of u (clock w) 604800)).
Proof.
  rewrite refreshToken_unfold.
  destruct token as [raw|key claims]; cbn [Jwt.verify];
    [destruct raw; discriminate|].
  destruct (String.eqb_spec key jwtSecret) as [->|]; cbn [negb]; [|discriminate].
  destruct (Z.leb_spec (Jwt.exp claims) (clock w / 1000)); [discriminate|].
  destruct (find _ (userRepo w)) as [u|] eqn:Hfind; [|discriminate].
  rewrite login_unfold. unfold outcome; cbn [fst]. intros Hs. inversion Hs.
  exists claims, u. repeat split; trivial.
Qed.

Lemma refreshToken_alive (claims : Jwt.Payload) (w : World) (u : User) :
  clock w / 1000 < Jwt.exp claims ->
  find (fun u => (email u =? Jwt.email claims)%string) (userRepo w) = Some u ->
  refreshToken (Jwt.Signed jwtSecret claims) w =
    (Return (Session.mk (Jwt.Signed jwtSecret (claims_of u (clock w) 900))
                        (Jwt.Signed jwtSecret (claims_of u (clock w) 604800))),
     w).
Proof.
  intros Hlive Hfind. rewrite refreshToken_unfold, verify_signed.
  destruct (Z.leb_spec (Jwt.exp claims) (clock w / 1000)); [lia|].
  rewrite Hfind. apply login_unfold.
Qed.

(** X6 - an access token refreshes a session too.  Nothing tells the two
    tokens of a session apart but their lifetime: within its 15 minutes the
    access token of a login is accepted by [refreshToken] and earns a new
    pair of tokens, 7-day refresh token included, for the identity its
    email resolves to. *)
Theorem refreshToken_accepts_access_token (user u : User) (w w2 : World)
    (s : Session.t) :
  outcome (login user w) = Return s ->
  find (fun x => (email x =? email user)%string) (userRepo w2) = Some u ->
  clock w2 / 1000 < clock w / 1000 + 15 * 60 ->
  refreshToken (Session.accessToken s) w2 =
    (Return (Session.mk (Jwt.Signed jwtSecret (claims_of u (clock w2) 900))
                        (Jwt.Signed jwtSecret (claims_of u (clock w2) 604800))),
     w2).
Proof.
  intros Hlogin Hfind Hlive.
  rewrite login_unfold in Hlogin. unfold outcome in Hlogin; cbn [fst] in Hlogin.
  inversion Hlogin; subst s. cbn [Session.accessToken].
  apply refreshToken_alive; cbn [claims_of Jwt.exp Jwt.email]; [lia|exact Hfind].
Qed.

(** X7 - a refresh token is not used up.  [refreshToken] never writes to
    the world, and a token it has accepted once it accepts again, in any
    world with the same users table, until the clock reaches the token's
    [exp]: refreshing neither rotates nor revokes the old token. *)
Theorem refreshToken_not_consumed (token : Jwt.Token) (w : World) :
  after (refreshToken token w) = w /\
  (forall s, outcome (refreshToken token w) = Return s ->
     exists claims,
       token = Jwt.Signed jwtSecret claims /\
       forall w2, userRepo w2 = userRepo w ->
                  clock w2 / 1000 < Jwt.exp claims ->
                  exists s2, outcome (refreshToken token w2) = Return s2).
Proof.
  split.
  - rewrite refreshToken_unfold.
    destruct (Jwt.verify jwtSecret token w) as [[decoded|err] w'] eqn:Hv;
      [|reflexivity].
    destruct (find _ (userRepo w)); [|reflexivity].
    now rewrite login_unfold.
  - intros s Hs. destruct (refreshToken_success _ _ _ Hs)
      as (claims & u & -> & _ & Hfind & _).
    exists claims. split; [reflexivity|]. intros w2 Hrows Hlive.
    rewrite <- Hrows in Hfind.
    eexists. rewrite (refreshToken_alive claims w2 u Hlive Hfind). reflexivity.
Qed.

(** X8 - a refreshed session is a working session.  The tokens
    [refreshToken] returns carry the email of the token presented and the
    id of the identity that email resolves to now; the new access token
    verifies at once, and the new refresh token refreshes in turn. *)
Theorem refreshToken_session_works (token : Jwt.Token) (w : World)
    (s : Session.t) :
  outcome (refreshToken token w) = Return s ->
  exists claims u got,
    token = Jwt.Signed jwtSecret claims /\
    find (fun u => (email u =? Jwt.email claims)%string) (userRepo w) = Some u /\
    Jwt.verify jwtSecret (Session.accessToken s) w = (Return got, w) /\
    Jwt.email got = Jwt.email claims /\
    Jwt.sub got = id u /\
    exists s', outcome (refreshToken (Session.refreshToken s) w) = Return s'.
Proof.
  intros Hs. destruct (refreshToken_success _ _ _ Hs)
    as (claims & u & -> & Hlive & Hfind & ->).
  exists claims, u, (claims_of u (clock w) 900).
  split; [reflexivity|]. split; [exact Hfind|].
  cbn [Session.accessToken Session.refreshToken]. split.
  - rewrite verify_signed. cbn [claims_of Jwt.exp].
    destruct (Z.leb_spec (clock w / 1000 + 900) (clock w / 1000)); [lia|].
    reflexivity.
  - split; [cbn [claims_of Jwt.email]; now apply find_email_hit in Hfind|].
    split; [reflexivity|].
    eexists. rewrite (refreshToken_alive _ w u); [reflexivity| |].
    + cbn [claims_of Jwt.exp]. lia.
    + cbn [claims_of Jwt.email].
      now rewrite (find_email_hit _ _ _ Hfind).
Qed.

(** X9 - logging out revokes nothing.  [logout] answers 'Logged out
    successfully' and leaves the world as it is; the refresh token of a
    login still refreshes after the logout, for 7 days from the login, as
    long as the email resolves. *)
Theorem logout_revokes_nothing (user u : User) (w w1 : World) (s : Session.t) :
  outcome (login user w) = Return s ->
  find (fun x => (email x =? email user)%string) (userRepo w1) = Some u ->
  clock w1 / 1000 < clock w / 1000 + 7 * 24 * 60 * 60 ->
  logout w1 = (Return "Logged out successfully", w1) /\
  exists s', outcome (refreshToken (Session.refreshToken s) (after (logout w1)))
             = Return s'.
Proof.
  intros Hlogin Hfind Hlive. split; [reflexivity|].
  rewrite login_unfold in Hlogin. unfold outcome in Hlogin; cbn [fst] in Hlogin.
  inversion Hlogin; subst s. cbn [Session.refreshToken].
  unfold logout, ret, after; cbn [snd].
  eexists. rewrite (refreshToken_alive _ w1 u); [reflexivity| |].
  - cbn [claims_of Jwt.exp]. lia.
  - cbn [claims_of Jwt.email]. exact Hfind.
Qed.

(** ** Registration *)

(** What [register] does, by what the lookup of the email finds. *)
Lemma register_unfold (newId nonce : string) (dto : RegisterDto.t) (w : World) :
  register newId nonce dto w =
  match find (fun u => (email u =? RegisterDto.email dto)%string) (userRepo w) with
  | Some _ => (Throw (Http (ConflictException "Email is already in use")), w)
  | None =>
      let user := mkUser newId (RegisterDto.email dto)
                         (passwordService_hash (RegisterDto.password dto))
                         None nonce in
      (Return (Session.mk
                 (Jwt.Signed jwtSecret (claims_of user (clock w) 900))
                 (Jwt.Signed jwtSecret (claims_of user (clock w) 604800))),
       set_userRepo (userRepo w ++ [user])%list w)
  end.
Proof.
  unfold register, bind, usersService_findOne, usersService_create.
  destruct (find _ (userRepo w)); [reflexivity|].
  cbv zeta. now rewrite login_unfold.
Qed.

Lemma find_none_not_in (e : string) (rows : list User) :
  find (fun u => (email u =? e)%string) rows = None ->
  ~ In e (map email rows).
Proof.
  intros Hnone Hin. apply in_map_iff in Hin. destruct Hin as (u & Hu & Hin).
  pose proof (find_none _ _ Hnone u Hin) as H. cbv beta in H.
  rewrite Hu, String.eqb_refl in H. discriminate.
Qed.

Lemma NoDup_snoc {A} (x : A) (l : list A) :
  ~ In x l -> NoDup l -> NoDup (l ++ [x])%list.
Proof.
  intros Hx Hl. induction Hl as [|a l Ha Hl IH]; simpl.
  - constructor; [intros []|constructor].
  - constructor.
    + intros Hin. apply in_app_or in Hin. destruct Hin as [Hin|[Hin|[]]].
      * now apply Ha.
      * apply Hx. left. now symmetry.
    + apply IH. intros Hin. apply Hx. now right.
Qed.

(** X10 - what a registration can end in.  [register] returns a session
    exactly when no identity has the email; otherwise it throws the
    conflict 'Email is already in use', and then no identity is created:
    the world stays as it was.  It throws nothing else. *)
Theorem register_outcomes (newId nonce : string) (dto : RegisterDto.t)
    (w : World) :
  ((exists s, outcome (register newId nonce dto w) = Return s) <->
   find (fun u => (email u =? RegisterDto.email dto)%string) (userRepo w) = None) /\
  (forall err, outcome (register newId nonce dto w) = Throw err ->
     err = Http (ConflictException "Email is already in use") /\
     after (register newId nonce dto w) = w).
Proof.
  rewrite register_unfold.
  destruct (find _ (userRepo w)) as [u|]; cbv zeta; unfold outcome, after;
    cbn [fst snd]; split.
  - split; [intros [s H]; discriminate|discriminate].
  - intros err H. inversion H. now split.
  - split; [reflexivity|]. intros _. eexists. reflexivity.
  - intros err H. discriminate.
Qed.

(** X11 - what a successful registration leaves.  The users table gains
    one row, at its end: the new identity with the email given, the hash
    of the password given, no wallet; the rows that were there are
    unchanged.  The access token returned verifies, within 15 minutes, to
    the new identity's email and id. *)
Theorem register_creates_identity (newId nonce : string) (dto : RegisterDto.t)
    (w : World) (s : Session.t) :
  outcome (register newId nonce dto w) = Return s ->
  let user := mkUser newId (RegisterDto.email dto)
                     (passwordService_hash (RegisterDto.password dto))
                     None nonce in
  userRepo (after (register newId nonce dto w)) = (userRepo w ++ [user])%list /\
  otpRepo (after (register newId nonce dto w)) = otpRepo w /\
  (forall w', clock w' / 1000 < clock w / 1000 + 15 * 60 ->
     exists got,
       Jwt.verify jwtSecret (Session.accessToken s) w' = (Return got, w') /\
       Jwt.email got = RegisterDto.email dto /\ Jwt.sub got = newId).
Proof.
  rewrite register_unfold.
  destruct (find _ (userRepo w)) as [u|]; cbv zeta; unfold outcome, after;
    cbn [fst snd]; [discriminate|].
  intros H. inversion H; subst s. split; [reflexivity|]. split; [reflexivity|].
  intros w' Hlive. cbn [Session.accessToken]. eexists.
  rewrite verify_signed. cbn [claims_of Jwt.exp id email].
  destruct (Z.leb_spec (clock w / 1000 + 900) (clock w' / 1000)); [lia|].
  repeat split.
Qed.

(** X12 - register, then sign in.  When the hasher's [compare] accepts a
    password against its own [hash], the credentials of a successful
    registration validate right after it, and [validateUser] returns the
    identity just created; a password [compare] rejects against that hash
    is refused as 'Invalid credentials'. *)
Theorem register_then_validateUser (newId nonce : string) (dto : RegisterDto.t)
    (w : World) (s : Session.t) :
  outcome (register newId nonce dto w) = Return s ->
  passwordService_compare (RegisterDto.password dto)
    (passwordService_hash (RegisterDto.password dto)) = true ->
  outcome (validateUser (RegisterDto.email dto) (RegisterDto.password dto)
                        (after (register newId nonce dto w)))
    = Return (mkUser newId (RegisterDto.email dto)
                     (passwordService_hash (RegisterDto.password dto))
                     None nonce) /\
  (forall pw,
      passwordService_compare pw
        (passwordService_hash (RegisterDto.password dto)) = false ->
      outcome (validateUser (RegisterDto.email dto) pw
                            (after (register newId nonce dto w)))
        = Throw (Http (UnauthorizedException "Invalid credentials"))).
Proof.
  rewrite register_unfold.
  destruct (find _ (userRepo w)) as [u|] eqn:Hfind; cbv zeta;
    unfold outcome at 1; cbn [fst]; [discriminate|].
  intros _ Hcmp. unfold after; cbn [snd].
  assert (Hnew : forall rows',
    find (fun u => (email u =? RegisterDto.email dto)%string)
         (userRepo w ++ mkUser newId (RegisterDto.email dto)
                          (passwordService_hash (RegisterDto.password dto))
                          None nonce :: rows')%list
    = Some (mkUser newId (RegisterDto.email dto)
                   (passwordService_hash (RegisterDto.password dto)) None nonce)).
  { intros rows'. rewrite (find_app_none _ _ _ Hfind). cbn [find email].
    now rewrite String.eqb_refl. }
  split.
  - rewrite validateUser_unfold. cbn [userRepo set_userRepo].
    rewrite Hnew. cbn [password]. now rewrite Hcmp.
  - intros pw Hpw. rewrite validateUser_unfold. cbn [userRepo set_userRepo].
    rewrite Hnew. cbn [password]. now rewrite Hpw.
Qed.

(** X13 - an email registers once.  After a successful registration any
    further registration with the same email, whatever the password, is
    refused with the conflict 'Email is already in use' and writes
    nothing. *)
Theorem register_twice_conflicts (newId nonce : string) (dto : RegisterDto.t)
    (w : World) (s : Session.t) (newId' nonce' : string) (dto' : RegisterDto.t) :
  outcome (register newId nonce dto w) = Return s ->
  RegisterDto.email dto' = RegisterDto.email dto ->
  register newId' nonce' dto' (after (register newId nonce dto w))
    = (Throw (Http (ConflictException "Email is already in use")),
       after (register newId nonce dto w)).
Proof.
  intros Hs Hsame. rewrite (register_unfold newId nonce dto w) in *.
  destruct (find (fun u => (email u =? RegisterDto.email dto)%string) (userRepo w))
    as [u|] eqn:Hfind; cbv zeta in *; unfold outcome in Hs; cbn [fst] in Hs;
    [discriminate|].
  unfold after; cbn [snd]. rewrite register_unfold, Hsame.
  cbn [userRepo set_userRepo].
  rewrite (find_app_none _ _ _ Hfind). cbn [find email].
  now rewrite String.eqb_refl.
Qed.

(** X14 - registration keeps emails unique.  If no two identities share
    an email before [register], none do after it, whether it succeeds or
    is refused. *)
Theorem register_keeps_emails_unique (newId nonce : string)
    (dto : RegisterDto.t) (w : World) :
  emails_unique w -> emails_unique (after (register newId nonce dto w)).
Proof.
  unfold emails_unique. intros Huniq. rewrite register_unfold.
  destruct (find _ (userRepo w)) as [u|] eqn:Hfind; cbv zeta; unfold after;
    cbn [snd]; [exact Huniq|].
  cbn [userRepo set_userRepo]. rewrite map_app. cbn [map email].
  apply NoDup_snoc; [now apply find_none_not_in|exact Huniq].
Qed.

(** ** More on wallet linking *)

(** In a keyed table a key names one row. *)
Lemma keyed_row_unique (rows : list User) (u v : User) :
  NoDup (map id rows) -> In u rows -> In v rows -> id u = id v -> u = v.
Proof.
  induction rows as [|a rows IH]; simpl; intros Hnd Hu Hv Hid; [contradiction|].
  inversion Hnd as [|? ? Hnotin Hnd']; subst.
  destruct Hu as [->|Hu], Hv as [->|Hv].
  - reflexivity.
  - elim Hnotin. rewrite Hid. now apply in_map.
  - elim Hnotin. rewrite <- Hid. now apply in_map.
  - now apply IH.
Qed.

(** X15 - addresses compare without case, and are stored as claimed.  Two
    claimed addresses that differ only in the case of their letters are
    refused alike, with the same error, or accepted alike; an accepted link
    stores the address exactly as the caller wrote it, not lower-cased and
    not as recovered. *)
Theorem linkWallet_address_case (uuid : string) (userId : Z)
    (a1 a2 signature : string) (w : World) :
  JS.toLowerCase a1 = JS.toLowerCase a2 ->
  (forall err,
      outcome (linkWallet uuid userId a1 signature w) = Throw err <->
      outcome (linkWallet uuid userId a2 signature w) = Throw err) /\
  (forall saved,
      outcome (linkWallet uuid userId a1 signature w) = Return saved ->
      walletAddress saved = Some a1 /\
      exists saved2,
        outcome (linkWallet uuid userId a2 signature w) = Return saved2 /\
        walletAddress saved2 = Some a2 /\
        walletNonce saved2 = walletNonce saved /\ id saved2 = id saved).
Proof.
  intros Hcase. rewrite !linkWallet_unfold.
  destruct (find _ (userRepo w)) as [user|].
  2:{ split; [reflexivity|discriminate]. }
  destruct (ethers_verifyMessage (challenge user) signature) as [rec|].
  2:{ split; [reflexivity|discriminate]. }
  rewrite <- Hcase.
  destruct (JS.toLowerCase rec =? JS.toLowerCase a1)%string;
    unfold outcome; cbn [fst].
  - split; [split; discriminate|].
    intros saved Hs. inversion Hs; subst saved. cbn [walletAddress].
    split; [reflexivity|]. eexists. split; [reflexivity|]. now repeat split.
  - split; [reflexivity|discriminate].
Qed.

(** X16 - a link touches one row.  Whatever its result, [linkWallet]
    leaves the keys of the users table, in their order, and the otp table
    as they were, and every row under another key untouched: it creates,
    removes and re-keys no identity.  In a keyed table it also leaves every
    email and every password hash in place, so emails that were unique stay
    unique. *)
Theorem linkWallet_touches_one_row (uuid : string) (userId : Z)
    (address signature : string) (w : World) :
  let w' := after (linkWallet uuid userId address signature w) in
  map id (userRepo w') = map id (userRepo w) /\
  otpRepo w' = otpRepo w /\
  (forall u, In u (userRepo w) -> id u <> JS.toString userId ->
             In u (userRepo w')) /\
  (keyed w ->
   map email (userRepo w') = map email (userRepo w) /\
   map password (userRepo w') = map password (userRepo w) /\
   (emails_unique w -> emails_unique w')).
Proof.
  cbv zeta. rewrite linkWallet_unfold.
  destruct (find _ (userRepo w)) as [user|] eqn:Hfind.
  2:{ unfold after; cbn [snd]. repeat split; trivial. }
  destruct (ethers_verifyMessage (challenge user) signature) as [rec|].
  2:{ unfold after; cbn [snd]. repeat split; trivial. }
  destruct (JS.toLowerCase rec =? JS.toLowerCase address)%string.
  2:{ unfold after; cbn [snd]. repeat split; trivial. }
  unfold after; cbn [snd userRepo otpRepo set_userRepo].
  pose proof (find_some _ _ Hfind) as [Hin Hkey].
  apply String.eqb_eq in Hkey.
  split; [|split; [reflexivity|split]].
  - rewrite map_map. apply map_ext. intros u.
    destruct (String.eqb_spec (id u) (JS.toString userId)) as [Hu|Hu];
      [cbn [id]; congruence|reflexivity].
  - intros u Hu Hother. apply in_map_iff. exists u. split; [|exact Hu].
    destruct (String.eqb_spec (id u) (JS.toString userId)); [contradiction|].
    reflexivity.
  - intros Hkeyed.
    assert (Hsame : forall u, In u (userRepo w) ->
                              id u = JS.toString userId -> u = user).
    { intros u Hu Hid. apply (keyed_row_unique (userRepo w)); trivial.
      congruence. }
    assert (Hemail : map email
        (map (fun u => if (id u =? JS.toString userId)%string
                       then mkUser (id user) (email user) (password user)
                                   (Some address) uuid
                       else u) (userRepo w)) = map email (userRepo w)).
    { rewrite map_map. apply map_ext_in. intros u Hu.
      destruct (String.eqb_spec (id u) (JS.toString userId)) as [Hid|];
        [|reflexivity].
      cbn [email]. now rewrite (Hsame u Hu Hid). }
    split; [exact Hemail|]. split.
    + rewrite map_map. apply map_ext_in. intros u Hu.
      destruct (String.eqb_spec (id u) (JS.toString userId)) as [Hid|];
        [|reflexivity].
      cbn [password]. now rewrite (Hsame u Hu Hid).
    + unfold emails_unique. cbn [userRepo set_userRepo]. now rewrite Hemail.
Qed.

(** ** More on decimal rendering *)

Lemma decimal_inj (a b : Z) :
  0 <= a -> 0 <= b -> JS.decimal a = JS.decimal b -> a = b.
Proof.
  intros Ha Hb Heq.
  rewrite <- (parse_decimal a Ha), <- (parse_decimal b Hb). now rewrite Heq.
Qed.

Lemma allDigits_decimal (n : Z) : 0 <= n -> JS.allDigits (JS.decimal n) = true.
Proof. intros Hn. now apply allDigits_toDigits. Qed.

(** The decimal rendering gives different strings for different integers. *)
Lemma toString_inj (a b : Z) : JS.toString a = JS.toString b -> a = b.
Proof.
  unfold JS.toString.
  destruct (Z.ltb_spec a 0) as [Ha|Ha], (Z.ltb_spec b 0) as [Hb|Hb]; intros Heq.
  - cbn [append] in Heq. inversion Heq as [Hdec].
    apply decimal_inj in Hdec; lia.
  - assert (H : JS.allDigits ("-" ++ JS.decimal (- a)) = true)
      by (rewrite Heq; now apply allDigits_decimal).
    discriminate H.
  - assert (H : JS.allDigits ("-" ++ JS.decimal (- b)) = true)
      by (rewrite <- Heq; now apply allDigits_decimal).
    discriminate H.
  - now apply decimal_inj.
Qed.

(** The identity a successful link returns has the rendered [userId] as
    its id. *)
Lemma linkWallet_saved_id (uuid : string) (userId : Z)
    (address signature : string) (w : World) (saved : User) :
  outcome (linkWallet uuid userId address signature w) = Return saved ->
  id saved = JS.toString userId.
Proof.
  rewrite linkWallet_unfold.
  destruct (find _ (userRepo w)) as [user|] eqn:Hfind; [|discriminate].
  destruct (ethers_verifyMessage (challenge user) signature); [|discriminate].
  destruct (JS.toLowerCase _ =? JS.toLowerCase address)%string; [|discriminate].
  unfold outcome; cbn [fst]. intros Hs. inversion Hs. cbn [id].
  apply find_some in Hfind. destruct Hfind as [_ Hid].
  now apply String.eqb_eq in Hid.
Qed.

(** X17 - different user ids link different identities.  For two
    different safe integers given as [userId], successful links (in the
    same world or in different ones) return identities with different ids,
    each the decimal rendering of its [userId]: a link under one user id
    never lands on the row of another. *)
Theorem linkWallet_distinct_userIds (uuid1 uuid2 : string) (a b : Z)
    (address1 address2 signature1 signature2 : string) (w1 w2 : World)
    (saved1 saved2 : User) :
  JS.isSafeInteger a -> JS.isSafeInteger b -> a <> b ->
  outcome (linkWallet uuid1 a address1 signature1 w1) = Return saved1 ->
  outcome (linkWallet uuid2 b address2 signature2 w2) = Return saved2 ->
  id saved1 = JS.toString a /\ id saved2 = JS.toString b /\
  id saved1 <> id saved2.
Proof.
  intros _ _ Hab H1 H2.
  apply linkWallet_saved_id in H1. apply linkWallet_saved_id in H2.
  split; [exact H1|]. split; [exact H2|].
  rewrite H1, H2. intros Heq. apply Hab. now apply toString_inj.
Qed.

(** X18 - one code per result of [randomInt].  [generateOtp] gives the
    same code for two draws exactly when [randomInt] returned the same
    number for them: rendering a result as a string loses nothing.  Every
    number from 100000 to 999998 is a result [randomInt] can return, and
    its code is its own decimal rendering, so the codes are as many as the
    results, 899999. *)
Theorem generateOtp_collision (x y : Z) :
  (generateOtp x = generateOtp y <->
   JS.randomInt 100000 999999 x = JS.randomInt 100000 999999 y) /\
  (forall n, 100000 <= n <= 999998 ->
     exists d, JS.randomInt 100000 999999 d = n /\
               generateOtp d = JS.toString n).
Proof.
  split.
  - unfold generateOtp. split; [apply toString_inj|now intros ->].
  - intros n Hn. exists (n - 100000).
    assert (Hr : JS.randomInt 100000 999999 (n - 100000) = n).
    { unfold JS.randomInt. change (999999 - 100000) with 899999.
      rewrite Z.mod_small by lia. lia. }
    split; [exact Hr|]. unfold generateOtp. now rewrite Hr.
Qed.

End AuthService.

(** ** The theorems at work on the sample world *)

(** The sample recovery table binds the message. *)
Lemma sample_recovery_binds : recovery_binds_message Sample.verifyMessage.
Proof.
  intros m1 m2 s a1 a2 H1 H2 _. unfold Sample.verifyMessage in *.
  destruct (s =? "0xsig-of-abcdef")%string.
  - destruct (String.eqb_spec m1 "Link wallet with nonce: n0"); [|discriminate].
    destruct (String.eqb_spec m2 "Link wallet with nonce: n0"); [|discriminate].
    congruence.
  - destruct (s =? "0xsig-of-123456")%string; [|discriminate].
    destruct (String.eqb_spec m1 "Link wallet with nonce: n0"); [|discriminate].
    destruct (String.eqb_spec m2 "Link wallet with nonce: n0"); [|discriminate].
    congruence.
Qed.

(** C1 on the sample world: the code 123456 verifies once at 0 ms, the
    table is empty afterwards, and the second verification answers false. *)
Lemma verifyOtp_one_time_use_witness :
  outcome (verifyOtp "a@x.com" "123456" (Sample.world 0)) = Return true /\
  otpRepo (after (verifyOtp "a@x.com" "123456" (Sample.world 0))) = [] /\
  verifyOtp "a@x.com" "123456"
            (after (verifyOtp "a@x.com" "123456" (Sample.world 0)))
    = (Return false, after (verifyOtp "a@x.com" "123456" (Sample.world 0))).
Proof.
  split; [reflexivity|].
  destruct (verifyOtp_one_time_use "a@x.com" "123456" (Sample.world 0) eq_refl)
    as (Hrows & _ & Hagain).
  split; [exact Hrows|].
  apply Hagain. intros r Hr. exact Hr.
Defined.

(** C3 as the claim states it fails at the boundary: the stored code
    expires at 300000 ms, the clock shows exactly 300000 ms, and
    [verifyOtp] returns [true]. *)
Lemma verifyOtp_at_expiresAt_returns_true :
  In Sample.otp1 (otpRepo (Sample.world 300000)) /\
  otp_matches "a@x.com" "123456" Sample.otp1 = true /\
  clock (Sample.world 300000) >= expiresAt Sample.otp1 /\
  outcome (verifyOtp "a@x.com" "123456" (Sample.world 300000)) = Return true /\
  outcome (verifyOtp "a@x.com" "123456" (Sample.world 300000)) <> Return false.
Proof.
  repeat split; try reflexivity.
  - now left.
  - discriminate.
  - discriminate.
Qed.

(** C3 as amended, on the sample world one millisecond later: the code is
    refused, purged, and refused again. *)
Lemma verifyOtp_expiry_witness :
  find (otp_matches "a@x.com" "123456") (otpRepo (Sample.world 300001))
    = Some Sample.otp1 /\
  outcome (verifyOtp "a@x.com" "123456" (Sample.world 300001)) = Return false /\
  otpRepo (after (verifyOtp "a@x.com" "123456" (Sample.world 300001))) = [] /\
  verifyOtp "a@x.com" "123456"
            (after (verifyOtp "a@x.com" "123456" (Sample.world 300001)))
    = (Return false, after (verifyOtp "a@x.com" "123456" (Sample.world 300001))).
Proof.
  split; [reflexivity|].
  destruct (verifyOtp_expiry "a@x.com" "123456" (Sample.world 300001)
                             Sample.otp1 eq_refl)
    as (Hpast & _ & Hrows & Hagain).
  split; [apply Hpast; simpl; lia|].
  split; [exact Hrows|].
  apply Hagain. intros r Hr. exact Hr.
Defined.

(** C4 as the claim states it fails for the passcode request: in one and
    the same world the request for an unknown email throws the conflict
    'invalid user does not exist', while the request for a known email
    succeeds, or, with the mail transport down, throws an internal server
    error.  The failure tells whether the email exists. *)
Lemma reuestOtp_discloses_existence :
  find (fun u => (email u =? "ghost@x.com")%string) (userRepo (Sample.world 0))
    = None /\
  find (fun u => (email u =? "a@x.com")%string) (userRepo (Sample.world 0))
    = Some Sample.alice /\
  outcome (reuestOtp 0 "ghost@x.com" (Sample.world 0))
    = Throw (Http (ConflictException "invalid user does not exist")) /\
  outcome (reuestOtp 0 "a@x.com" (Sample.world 0)) = Return tt /\
  outcome (reuestOtp 0 "ghost@x.com" (Sample.offline 0))
    = Throw (Http (ConflictException "invalid user does not exist")) /\
  outcome (reuestOtp 0 "a@x.com" (Sample.offline 0))
    = Throw (Http (InternalServerErrorException
                     "Failed to generate and send OTP")) /\
  outcome (reuestOtp 0 "ghost@x.com" (Sample.offline 0))
    <> outcome (reuestOtp 0 "a@x.com" (Sample.offline 0)).
Proof.
  repeat split; try reflexivity. discriminate.
Qed.

(** C6 as the claim states it fails on the kind: for the unknown email
    ghost@x.com the request throws a [ConflictException], status 409 and
    not the 404 of a not-found kind - the very class and status [register]
    answers with when the email a@x.com is already in use. *)
Lemma reuestOtp_user_absent_is_conflict :
  find (fun u => (email u =? "ghost@x.com")%string) (userRepo (Sample.world 0))
    = None /\
  exists ex,
    outcome (reuestOtp 0 "ghost@x.com" (Sample.world 0)) = Throw (Http ex) /\
    ex = ConflictException "invalid user does not exist" /\
    getStatus ex = HttpStatus_CONFLICT /\
    getStatus ex <> HttpStatus_NOT_FOUND /\
    exists ex',
      outcome (register Sample.secret Sample.hash "3" "n3"
                        (RegisterDto.mk "a@x.com" "pw") (Sample.world 0))
        = Throw (Http ex') /\
      ex' = ConflictException "Email is already in use" /\
      getStatus ex' = getStatus ex.
Proof.
  split; [reflexivity|].
  eexists. split; [reflexivity|]. split; [reflexivity|].
  split; [reflexivity|]. split; [discriminate|].
  eexists. split; [reflexivity|]. split; reflexivity.
Qed.

(** C6 as amended, on the sample world. *)
Lemma reuestOtp_user_absent_witness :
  find (fun u => (email u =? "ghost@x.com")%string) (userRepo (Sample.world 0))
    = None /\
  reuestOtp 0 "ghost@x.com" (Sample.world 0)
    = (Throw (Http (ConflictException "invalid user does not exist")),
       Sample.world 0).
Proof.
  split; [reflexivity|].
  destruct (reuestOtp_user_absent_unmasked 0 "ghost@x.com" (Sample.world 0)
                                           eq_refl)
    as (Htry & Hsame & _).
  rewrite Hsame. exact Htry.
Defined.

(** C2 as the claim states it fails on an address mismatch: the signature
    made by the key of 0x123456 is recovered without error, the claimed
    address is 0xabcdef, the call throws 'Signature verification failed',
    and the stored nonce is still the one the challenge was built from. *)
Lemma linkWallet_mismatch_keeps_nonce :
  find (fun u => (id u =? JS.toString 1)%string) (userRepo (Sample.world 0))
    = Some Sample.alice /\
  Sample.verifyMessage (challenge Sample.alice) "0xsig-of-123456"
    = Some "0x123456" /\
  outcome (linkWallet Sample.verifyMessage "n1" 1 "0xabcdef" "0xsig-of-123456"
                      (Sample.world 0))
    = Throw (Http (UnauthorizedException "Signature verification failed")) /\
  find (fun u => (id u =? JS.toString 1)%string)
       (userRepo (after (linkWallet Sample.verifyMessage "n1" 1 "0xabcdef"
                                    "0xsig-of-123456" (Sample.world 0))))
    = Some Sample.alice /\
  walletNonce Sample.alice = "n0".
Proof.
  repeat split; reflexivity.
Qed.

(** C2 as amended, on the sample world: the key of 0xABCDEF links the
    address 0xabcdef, the nonce turns from n0 into n1, and the same
    signature sent again is refused. *)
Lemma linkWallet_rotates_witness :
  find (fun u => (id u =? JS.toString 1)%string) (userRepo (Sample.world 0))
    = Some Sample.alice /\
  exists saved,
    outcome (linkWallet Sample.verifyMessage "n1" 1 "0xabcdef" "0xsig-of-abcdef"
                        (Sample.world 0)) = Return saved /\
    walletNonce saved = "n1" /\
    walletNonce saved <> walletNonce Sample.alice /\
    exists msg,
      outcome (linkWallet Sample.verifyMessage "n2" 1 "0xabcdef" "0xsig-of-abcdef"
                 (after (linkWallet Sample.verifyMessage "n1" 1 "0xabcdef"
                                    "0xsig-of-abcdef" (Sample.world 0))))
        = Throw (Http (UnauthorizedException msg)).
Proof.
  split; [reflexivity|].
  destruct (linkWallet_rotates_on_success Sample.verifyMessage
              "n1" 1 "0xabcdef" "0xsig-of-abcdef" (Sample.world 0)
              Sample.alice eq_refl) as [Hsucc _].
  eexists. split; [reflexivity|].
  destruct (Hsucc _ eq_refl) as (_ & Hnonce & _ & Hfresh).
  split; [exact Hnonce|].
  assert (Hne : "n1" <> walletNonce Sample.alice) by discriminate.
  destruct (Hfresh Hne) as [Hdiff Hreplay].
  split; [exact Hdiff|].
  destruct (Hreplay sample_recovery_binds "n2") as [msg Hmsg].
  exists msg. unfold outcome. now rewrite Hmsg.
Defined.

(** C10 on the sample world: the mismatching link attempt leaves the world
    as it was. *)
Lemma linkWallet_failure_witness :
  outcome (linkWallet Sample.verifyMessage "n1" 1 "0xabcdef" "0xsig-of-123456"
                      (Sample.world 0))
    = Throw (Http (UnauthorizedException "Signature verification failed")) /\
  after (linkWallet Sample.verifyMessage "n1" 1 "0xabcdef" "0xsig-of-123456"
                    (Sample.world 0))
    = Sample.world 0.
Proof.
  split; [reflexivity|].
  apply (linkWallet_failure_writes_nothing Sample.verifyMessage
           "n1" 1 "0xabcdef" "0xsig-of-123456" (Sample.world 0) _ eq_refl).
Defined.

(** ** The service run on the sample world *)

Example validateUser_sample :
  outcome (validateUser Sample.compare "a@x.com" "correct horse" (Sample.world 0))
    = Return Sample.alice /\
  outcome (validateUser Sample.compare "a@x.com" "wrong" (Sample.world 0))
    = Throw (Http (UnauthorizedException "Invalid credentials")) /\
  outcome (validateUser Sample.compare "ghost@x.com" "correct horse" (Sample.world 0))
    = Throw (Http (UnauthorizedException "Invalid credentials")).
Proof. repeat split; reflexivity. Qed.

(** A session issued at 0 ms: the access token verifies at 899999 ms and is
    expired at 900000 ms. *)
Example login_sample :
  exists s,
    outcome (login Sample.secret Sample.alice (Sample.world 0)) = Return s /\
    outcome (Jwt.verify Sample.secret (Session.accessToken s) (Sample.world 899999))
      = Return (Jwt.mkPayload "a@x.com" "1" 0 900) /\
    outcome (Jwt.verify Sample.secret (Session.accessToken s) (Sample.world 900000))
      = Throw (Other "TokenExpiredError" "jwt expired").
Proof. eexists. repeat split; reflexivity. Qed.

(** A refresh token issued at 0 ms refreshes the session a day later and is
    refused 8 days later; so is a token under another key. *)
Example refreshToken_sample :
  exists s,
    outcome (login Sample.secret Sample.alice (Sample.world 0)) = Return s /\
    outcome (refreshToken Sample.secret (Session.refreshToken s)
                          (Sample.world (24 * 60 * 60 * 1000)))
      = Return (Session.mk
                  (Jwt.Signed Sample.secret (Jwt.mkPayload "a@x.com" "1" 86400 87300))
                  (Jwt.Signed Sample.secret (Jwt.mkPayload "a@x.com" "1" 86400 691200))) /\
    outcome (refreshToken Sample.secret (Session.refreshToken s)
                          (Sample.world (8 * 24 * 60 * 60 * 1000)))
      = Throw (Http (UnauthorizedException "Invalid or expired refresh token")) /\
    outcome (refreshToken Sample.secret
               (Jwt.Signed "another key" (Jwt.mkPayload "a@x.com" "1" 0 900))
               (Sample.world 0))
      = Throw (Http (UnauthorizedException "Invalid or expired refresh token")).
Proof. eexists. repeat split; reflexivity. Qed.

(** The passcodes at the two ends of the draw. *)
Example generateOtp_sample :
  generateOtp 0 = "100000" /\ generateOtp 899998 = "999998" /\
  generateOtp 899999 = "100000".
Proof. repeat split; reflexivity. Qed.

(** ** The further theorems at work on the sample world *)

(** X1: the code requested at 1000 ms verifies in the world the request
    left. *)
Lemma reuestOtp_then_verifyOtp_witness :
  outcome (reuestOtp 5 "a@x.com" (Sample.world 1000)) = Return tt /\
  outcome (verifyOtp "a@x.com" "100005"
                     (after (reuestOtp 5 "a@x.com" (Sample.world 1000))))
    = Return true.
Proof.
  assert (Hnew : forall r, In r (otpRepo (Sample.world 1000)) ->
                           otp_matches "a@x.com" (generateOtp 5) r = false).
  { intros r [<-|[]]. reflexivity. }
  destruct (reuestOtp_then_verifyOtp 5 "a@x.com" (Sample.world 1000)
              (after (reuestOtp 5 "a@x.com" (Sample.world 1000)))
              Sample.alice eq_refl eq_refl Hnew eq_refl)
    as (Hret & _ & Hverify).
  split; [exact Hret|exact Hverify].
Defined.

(** X2: with the transport down the request fails and the code stays. *)
Lemma reuestOtp_mail_failure_witness :
  outcome (reuestOtp 5 "a@x.com" (Sample.offline 1000))
    = Throw (Http (InternalServerErrorException
                     "Failed to generate and send OTP")) /\
  outcome (verifyOtp "a@x.com" "100005"
                     (after (reuestOtp 5 "a@x.com" (Sample.offline 1000))))
    = Return true.
Proof.
  assert (Hnew : forall r, In r (otpRepo (Sample.offline 1000)) ->
                           otp_matches "a@x.com" (generateOtp 5) r = false).
  { intros r [<-|[]]. reflexivity. }
  destruct (reuestOtp_mail_failure_keeps_code 5 "a@x.com" (Sample.offline 1000)
              Sample.alice eq_refl eq_refl)
    as (Hthrow & _ & _ & Hverify).
  split; [exact Hthrow|exact (Hverify Hnew)].
Defined.

(** X4: a wrong guess leaves the right code verifiable. *)
Lemma verifyOtp_other_pair_witness :
  outcome (verifyOtp "a@x.com" "123456"
                     (after (verifyOtp "a@x.com" "000000" (Sample.world 0))))
    = Return true.
Proof.
  assert (Hdiff : ("a@x.com", "000000") <> ("a@x.com", "123456"))
    by discriminate.
  destruct (verifyOtp_other_pair_untouched "a@x.com" "000000" "a@x.com" "123456"
              (Sample.world 0) Hdiff) as [Hsame _].
  rewrite Hsame. reflexivity.
Defined.

(** X5: the code of the sample world survives a new request. *)
Lemma reuestOtp_keeps_earlier_codes_witness :
  outcome (verifyOtp "a@x.com" "123456"
                     (after (reuestOtp 5 "a@x.com" (Sample.world 0))))
    = Return true.
Proof.
  rewrite (reuestOtp_keeps_earlier_codes 5 "a@x.com" "a@x.com" "123456"
             (Sample.world 0) (Sample.world 0)
             (after (reuestOtp 5 "a@x.com" (Sample.world 0)))
             Sample.otp1 eq_refl eq_refl eq_refl eq_refl).
  reflexivity.
Defined.

(** X6: one minute after the login the access token refreshes the session. *)
Lemma refreshToken_accepts_access_token_witness :
  exists s s2,
    outcome (login Sample.secret Sample.alice (Sample.world 0)) = Return s /\
    outcome (refreshToken Sample.secret (Session.accessToken s)
                          (Sample.world 60000)) = Return s2.
Proof.
  eexists. eexists. split; [reflexivity|].
  rewrite (refreshToken_accepts_access_token Sample.secret Sample.alice
             Sample.alice (Sample.world 0) (Sample.world 60000) _
             eq_refl eq_refl eq_refl).
  reflexivity.
Defined.

(** X8: the session refreshed at one second verifies and refreshes again. *)
Lemma refreshToken_session_works_witness :
  exists s got s',
    outcome (refreshToken Sample.secret
               (Jwt.Signed Sample.secret (claims_of Sample.alice 0 604800))
               (Sample.world 1000)) = Return s /\
    Jwt.verify Sample.secret (Session.accessToken s) (Sample.world 1000)
      = (Return got, Sample.world 1000) /\
    outcome (refreshToken Sample.secret (Session.refreshToken s)
                          (Sample.world 1000)) = Return s'.
Proof.
  eexists.
  destruct (refreshToken_session_works Sample.secret
              (Jwt.Signed Sample.secret (claims_of Sample.alice 0 604800))
              (Sample.world 1000) _ eq_refl)
    as (claims & u & got & _ & _ & Hverify & _ & _ & s' & Hchain).
  exists got, s'. split; [reflexivity|]. split; [exact Hverify|exact Hchain].
Defined.

(** X9: a day after the login, and after a logout, the refresh token still
    refreshes. *)
Lemma logout_revokes_nothing_witness :
  exists s s',
    outcome (login Sample.secret Sample.alice (Sample.world 0)) = Return s /\
    outcome (refreshToken Sample.secret (Session.refreshToken s)
               (after (logout (Sample.world 86400000)))) = Return s'.
Proof.
  eexists.
  destruct (logout_revokes_nothing Sample.secret Sample.alice Sample.alice
              (Sample.world 0) (Sample.world 86400000) _
              eq_refl eq_refl eq_refl) as [_ [s' Hs']].
  exists s'. split; [reflexivity|exact Hs'].
Defined.

(** X11: registering b@x.com appends the new row behind alice's. *)
Lemma register_creates_identity_witness :
  exists s,
    outcome (register Sample.secret Sample.hash "2" "n9" Sample.bob_dto
                      (Sample.world 0)) = Return s /\
    userRepo (after (register Sample.secret Sample.hash "2" "n9" Sample.bob_dto
                              (Sample.world 0)))
      = [Sample.alice; mkUser "2" "b@x.com" "bcrypt:hunter2" None "n9"].
Proof.
  eexists. split; [reflexivity|].
  destruct (register_creates_identity Sample.secret Sample.hash "2" "n9"
              Sample.bob_dto (Sample.world 0) _ eq_refl) as (Hrows & _ & _).
  exact Hrows.
Defined.

(** X12: the password registered validates, another one does not. *)
Lemma register_then_validateUser_witness :
  outcome (validateUser Sample.compare "b@x.com" "hunter2"
             (after (register Sample.secret Sample.hash "2" "n9" Sample.bob_dto
                              (Sample.world 0))))
    = Return (mkUser "2" "b@x.com" "bcrypt:hunter2" None "n9") /\
  outcome (validateUser Sample.compare "b@x.com" "hunter3"
             (after (register Sample.secret Sample.hash "2" "n9" Sample.bob_dto
                              (Sample.world 0))))
    = Throw (Http (UnauthorizedException "Invalid credentials")).
Proof.
  destruct (register_then_validateUser Sample.compare Sample.secret Sample.hash
              "2" "n9" Sample.bob_dto (Sample.world 0) _ eq_refl eq_refl)
    as [Hok Hbad].
  split; [exact Hok|exact (Hbad "hunter3" eq_refl)].
Defined.

(** X13: a second registration of b@x.com is refused. *)
Lemma register_twice_conflicts_witness :
  outcome (register Sample.secret Sample.hash "3" "n10"
             (RegisterDto.mk "b@x.com" "other")
             (after (register Sample.secret Sample.hash "2" "n9" Sample.bob_dto
                              (Sample.world 0))))
    = Throw (Http (ConflictException "Email is already in use")).
Proof.
  rewrite (register_twice_conflicts Sample.secret Sample.hash "2" "n9"
             Sample.bob_dto (Sample.world 0) _ "3" "n10"
             (RegisterDto.mk "b@x.com" "other") eq_refl eq_refl).
  reflexivity.
Defined.

(** X14: emails are unique in the sample world and after a registration. *)
Lemma register_keeps_emails_unique_witness :
  emails_unique (Sample.world 0) /\
  emails_unique (after (register Sample.secret Sample.hash "2" "n9"
                                 Sample.bob_dto (Sample.world 0))).
Proof.
  assert (Huniq : emails_unique (Sample.world 0)).
  { unfold emails_unique. simpl. constructor; [intros []|constructor]. }
  split; [exact Huniq|].
  exact (register_keeps_emails_unique Sample.secret Sample.hash "2" "n9"
           Sample.bob_dto (Sample.world 0) Huniq).
Defined.

(** X15: the address in capitals links as the one in small letters does,
    and is stored in capitals. *)
Lemma linkWallet_address_case_witness :
  exists saved saved2,
    outcome (linkWallet Sample.verifyMessage "n1" 1 "0xABCDEF" "0xsig-of-abcdef"
                        (Sample.world 0)) = Return saved /\
    walletAddress saved = Some "0xABCDEF" /\
    outcome (linkWallet Sample.verifyMessage "n1" 1 "0xabcdef" "0xsig-of-abcdef"
                        (Sample.world 0)) = Return saved2 /\
    walletAddress saved2 = Some "0xabcdef".
Proof.
  destruct (linkWallet_address_case Sample.verifyMessage "n1" 1
              "0xABCDEF" "0xabcdef" "0xsig-of-abcdef" (Sample.world 0) eq_refl)
    as [_ Hok].
  eexists.
  destruct (Hok _ eq_refl) as (Haddr & saved2 & Hret2 & Haddr2 & _ & _).
  exists saved2. split; [reflexivity|].
  split; [exact Haddr|]. split; [exact Hret2|exact Haddr2].
Defined.

(** X17: alice under user id 1 and bob under user id 2 link their wallets;
    the identities returned carry the ids 1 and 2. *)
Lemma linkWallet_distinct_userIds_witness :
  exists saved1 saved2,
    outcome (linkWallet Sample.verifyMessage "n1" 1 "0xabcdef" "0xsig-of-abcdef"
                        (Sample.world2 0)) = Return saved1 /\
    outcome (linkWallet Sample.verifyMessage "n2" 2 "0x123456" "0xsig-of-123456"
                        (Sample.world2 0)) = Return saved2 /\
    id saved1 = "1" /\ id saved2 = "2" /\ id saved1 <> id saved2.
Proof.
  assert (Hsafe1 : JS.isSafeInteger 1)
    by (unfold JS.isSafeInteger, JS.MAX_SAFE_INTEGER; lia).
  assert (Hsafe2 : JS.isSafeInteger 2)
    by (unfold JS.isSafeInteger, JS.MAX_SAFE_INTEGER; lia).
  assert (Hdiff : 1 <> 2) by lia.
  eexists. eexists. split; [reflexivity|]. split; [reflexivity|].
  exact (linkWallet_distinct_userIds Sample.verifyMessage "n1" "n2" 1 2
           "0xabcdef" "0x123456" "0xsig-of-abcdef" "0xsig-of-123456"
           (Sample.world2 0) (Sample.world2 0) _ _
           Hsafe1 Hsafe2 Hdiff eq_refl eq_refl).
Defined.

(** Why X1 and X2 ask for no older row with the same pair: behind an
    expired row for (a@x.com, 100005) the fresh code 100005 is refused, and
    the purge takes the fresh row along. *)
Example reuestOtp_behind_stale_row :
  outcome (reuestOtp 5 "a@x.com" (Sample.stale 1000))
    = Throw (Http (InternalServerErrorException
                     "Failed to generate and send OTP")) /\
  otpRepo (after (reuestOtp 5 "a@x.com" (Sample.stale 1000)))
    = [mkOtp "a@x.com" "100005" 0; mkOtp "a@x.com" "100005" 301000] /\
  verifyOtp "a@x.com" "100005" (after (reuestOtp 5 "a@x.com" (Sample.stale 1000)))
    = (Return false, mkWorld [Sample.alice] [] 1000 false []).
Proof. repeat split; reflexivity. Qed.
